(** * Honi: the token analysis pipeline of [bot.js]

    A shallow embedding of the analysis core of the bot: the two chain
    fetches, the market fetch, the orchestrator [analyzeToken] and the two
    pure evaluators [checkHoneypotLogic] and [checkOwnership].

    JavaScript values are modelled as follows.
    - A string is a [string] (the bytes of its UTF-8 encoding).
    - A thrown [Error] is its [message]; an [async] function is the outcome
      its promise settles with, together with the lines it hands to
      [logger.error] (module [Js]).
    - An object that may be [null] is an [option].
    - The chain node, the market provider and the number formatting of the
      JavaScript runtime are not code of this repository: they are the
      fields of a [World]. *)

From Stdlib Require Import String Ascii List Bool ZArith Lia.
From Stdlib Require Import DecimalString.
Import ListNotations.
Local Open Scope list_scope.
Local Open Scope string_scope.

(** ** Exceptions and the log *)

Module Js.

(** What a [try] block or a settled promise ends with. *)
Inductive outcome (A : Type) : Type :=
| Returned (a : A)
| Thrown (message : string).
Arguments Returned {A} a.
Arguments Thrown {A} message.

(** A computation that may call [logger.error] and may throw. *)
Definition M (A : Type) : Type := (outcome A * list string)%type.

Definition ret {A} (a : A) : M A := (Returned a, []).

Definition throw {A} (message : string) : M A := (Thrown message, []).

Definition log_error (line : string) : M unit := (Returned tt, [line]).

Definition bind {A B} (m : M A) (k : A -> M B) : M B :=
  match m with
  | (Returned a, l1) => let (r, l2) := k a in (r, (l1 ++ l2)%list)
  | (Thrown e, l1) => (Thrown e, l1)
  end.

(** [try { body } catch (error) { handler(error.message) }] *)
Definition try_catch {A} (body : M A) (handler : string -> M A) : M A :=
  match body with
  | (Returned a, l1) => (Returned a, l1)
  | (Thrown e, l1) => let (r, l2) := handler e in (r, (l1 ++ l2)%list)
  end.

(** A call of the outside world: it returns or throws, and logs nothing. *)
Definition lift {A} (o : outcome A) : M A := (o, []).

Definition result {A} (m : M A) : outcome A := fst m.
Definition logged {A} (m : M A) : list string := snd m.

Definition failed {A} (o : outcome A) : bool :=
  match o with Returned _ => false | Thrown _ => true end.

End Js.

Import Js.

Declare Scope js_scope.
Delimit Scope js_scope with js.
Notation "x <- m ;; k" := (Js.bind m (fun x => k))
  (at level 61, m at next level, right associativity) : js_scope.
Notation "m ;;; k" := (Js.bind m (fun _ => k))
  (at level 61, right associativity) : js_scope.

(** ** Data model *)

(** The object returned by [getAccountInfo]. *)
Record AccountInfo : Type := mkAccountInfo {
  owner : string;
  lamports : Z
}.

(** An element of the array returned by [getTokenTransactions]. *)
Record Transaction : Type := mkTransaction {
  txId : string;
  type : string
}.

(** ** Risk evaluator *)

Definition is_receive (tx : Transaction) : bool := String.eqb (type tx) "receive".

(** [transactions.every(tx => tx.type === 'receive')] *)
Definition every {A} (p : A -> bool) (l : list A) : bool := forallb p l.

Definition checkHoneypotLogic (accountInfo : option AccountInfo)
    (transactions : list Transaction) : bool :=
  if match accountInfo with None => true | Some _ => false end
     || (length transactions =? 0)%nat
  then true
  else if every is_receive transactions then true
  else false.

Definition SYSTEM_PROGRAM : string := "11111111111111111111111111111111".

Definition checkOwnership (accountInfo : option AccountInfo) : string :=
  match accountInfo with
  | None => "❓ Unknown"
  | Some a =>
      if String.eqb (owner a) SYSTEM_PROGRAM
      then "🚨 Centralized Ownership"
      else "✅ Owner: " ++ owner a
  end.

(** ** The outside world *)

(** What [@solana/web3.js] hands back. *)
Module Solana.

(** The non-null answer of [connection.getAccountInfo]. *)
Record AccountData (PublicKey : Type) : Type := mkAccountData {
  owner : PublicKey;
  lamports : Z
}.
Arguments mkAccountData {PublicKey} owner lamports.
Arguments owner {PublicKey} a.
Arguments lamports {PublicKey} a.

(** An element of the answer of [getConfirmedSignaturesForAddress2]. The
    field [err] is [null] or the error the transaction recorded; only its
    truthiness is looked at, so the error itself is kept as a text. *)
Record SignatureInfo : Type := mkSignatureInfo {
  signature : string;
  err : option string
}.

End Solana.

(** A numeric field of an object of the provider: the key is missing, or it
    holds [null], or it holds a number. *)
Inductive JsonNumber (number : Type) : Type :=
| Undefined
| Null
| Number (n : number).
Arguments Undefined {number}.
Arguments Null {number}.
Arguments Number {number} n.

(** What the market provider hands back in [response.data]. *)
Module CoinGecko.

Record Coin (number : Type) : Type := mkCoin {
  name : string;
  symbol : string;
  current_price : JsonNumber number;
  market_cap : JsonNumber number
}.
Arguments mkCoin {number} name symbol current_price market_cap.
Arguments name {number} c.
Arguments symbol {number} c.
Arguments current_price {number} c.
Arguments market_cap {number} c.

End CoinGecko.

(** Everything [bot.js] calls and does not define. A call that throws (a
    malformed address, an unreachable node, a provider error) is a
    [Thrown] with the message of the error. *)
Record World : Type := mkWorld {
  PublicKey : Type;
  number : Type;
  (** [new PublicKey(address)] *)
  newPublicKey : string -> outcome PublicKey;
  (** [publicKey.toBase58()] *)
  toBase58 : PublicKey -> string;
  (** [connection.getAccountInfo(publicKey)] *)
  connection_getAccountInfo :
    PublicKey -> outcome (option (Solana.AccountData PublicKey));
  (** [connection.getConfirmedSignaturesForAddress2(publicKey, { limit })] *)
  connection_getConfirmedSignaturesForAddress2 :
    PublicKey -> Z -> outcome (list Solana.SignatureInfo);
  (** [axios.get(url, { params: { vs_currency, ids } })], giving [response.data] *)
  axios_get : string -> string -> string -> outcome (list (CoinGecko.Coin number));
  (** [s.toLowerCase()] *)
  toLowerCase : string -> string;
  (** the text a number takes inside a template literal *)
  numberToString : number -> string;
  (** [n.toLocaleString()] *)
  toLocaleString : number -> string;
  (** the message of the TypeError for reading the property [p] of [null] or
      of [undefined]: [TypeError_message "null" p] *)
  TypeError_message : string -> string -> string
}.

(** A value of the running program that is a number or a string. *)
Inductive JsValue (number : Type) : Type :=
| JsNumber (n : number)
| JsString (s : string).
Arguments JsNumber {number} n.
Arguments JsString {number} s.

Definition typeof {number} (v : JsValue number) : string :=
  match v with
  | JsNumber _ => "number"
  | JsString _ => "string"
  end.

(** The object returned by [getTokenInfo]. *)
Record TokenDetails (number : Type) : Type := mkTokenDetails {
  name : string;
  symbol : string;
  price : JsValue number;
  marketCap : JsValue number
}.
Arguments mkTokenDetails {number} name symbol price marketCap.
Arguments name {number} t.
Arguments symbol {number} t.
Arguments price {number} t.
Arguments marketCap {number} t.

(** The object returned by [analyzeToken]. *)
Record Analysis (number : Type) : Type := mkAnalysis {
  honeypot : string;
  ownership : string;
  tokenDetails : TokenDetails number;
  transactions : list Transaction
}.
Arguments mkAnalysis {number} honeypot ownership tokenDetails transactions.
Arguments honeypot {number} a.
Arguments ownership {number} a.
Arguments tokenDetails {number} a.
Arguments transactions {number} a.

(** ** Configuration *)

Module config.
Definition COINGECKO_API_URL : string := "https://api.coingecko.com/api/v3".
End config.

(** The options the limiter is built with. *)
Module limiter.
Definition minTime : Z := 300.
Definition maxConcurrent : Z := 5.
End limiter.

(** ** Fetches *)

(** The three promises [analyzeToken] waits for. *)
Inductive fetch : Type := FAccount | FTransactions | FMarket.

(** The order in which the outside world answers the calls of the three
    fetches; it is decided by the network, not by the program. *)
Inductive settle_order : Type :=
| ATM | AMT | TAM | TMA | MAT | MTA.

Definition order_list (o : settle_order) : list fetch :=
  match o with
  | ATM => [FAccount; FTransactions; FMarket]
  | AMT => [FAccount; FMarket; FTransactions]
  | TAM => [FTransactions; FAccount; FMarket]
  | TMA => [FTransactions; FMarket; FAccount]
  | MAT => [FMarket; FAccount; FTransactions]
  | MTA => [FMarket; FTransactions; FAccount]
  end.

(** [array.slice(0, n)] *)
Definition slice0 {A} (n : nat) (l : list A) : list A := firstn n l.

(** What a fetch settles with, and logs, when its [try] block throws. *)
Definition rethrown {A} (generic line : string) : M A :=
  (Thrown generic, [line]).

Definition ANALYSIS_FAILED : string :=
  "Analysis failed. Check the token address and symbol.".

Section Pipeline.

Context (w : World).
Local Open Scope js_scope.

Definition getAccountInfo (address : string) : M AccountInfo :=
  try_catch
    (publicKey <- lift (newPublicKey w address) ;;
     accountInfo <- lift (connection_getAccountInfo w publicKey) ;;
     match accountInfo with
     | None => throw "Account not found"
     | Some accountInfo =>
         ret {| owner := toBase58 w (Solana.owner accountInfo);
                lamports := Solana.lamports accountInfo |}
     end)
    (fun message =>
       log_error ("Error fetching account info for " ++ address ++ ": " ++ message) ;;;
       throw "Failed to fetch account info.").

(** [tx.err ? 'failed' : 'confirmed'] *)
Definition tx_type (tx : Solana.SignatureInfo) : string :=
  match Solana.err tx with
  | Some _ => "failed"
  | None => "confirmed"
  end.

Definition getTokenTransactions (address : string) : M (list Transaction) :=
  try_catch
    (publicKey <- lift (newPublicKey w address) ;;
     transactions <- lift (connection_getConfirmedSignaturesForAddress2 w publicKey 10) ;;
     ret (map (fun tx => {| txId := Solana.signature tx; type := tx_type tx |})
              transactions))
    (fun message =>
       log_error ("Error fetching transactions for " ++ address ++ ": " ++ message) ;;;
       throw "Failed to fetch transactions.").

(** [${v}] for a numeric field [v]. *)
Definition number_text (v : JsonNumber (number w)) : string :=
  match v with
  | Undefined => "undefined"
  | Null => "null"
  | Number n => numberToString w n
  end.

(** [v.toLocaleString()] for a numeric field [v]: reading the property of
    [null] or of [undefined] throws. *)
Definition toLocaleString_of (v : JsonNumber (number w)) : M string :=
  match v with
  | Undefined => throw (TypeError_message w "undefined" "toLocaleString")
  | Null => throw (TypeError_message w "null" "toLocaleString")
  | Number n => ret (toLocaleString w n)
  end.

Definition getTokenInfo (symbol : string) : M (TokenDetails (number w)) :=
  try_catch
    (data <- lift (axios_get w (config.COINGECKO_API_URL ++ "/coins/markets")
                     "usd" (toLowerCase w symbol)) ;;
     match data with
     | [] => throw "Token not found."
     | token :: _ =>
         let price := "$" ++ number_text (CoinGecko.current_price token) in
         market_cap <- toLocaleString_of (CoinGecko.market_cap token) ;;
         ret {| name := CoinGecko.name token;
                symbol := CoinGecko.symbol token;
                price := JsString price;
                marketCap := JsString ("$" ++ market_cap) |}
     end)
    (fun message =>
       log_error ("Error fetching token info: " ++ message) ;;;
       throw "Failed to retrieve token info.").

(** *** Orchestrator *)

Definition rejection {A} (o : outcome A) : option string :=
  match o with
  | Returned _ => None
  | Thrown message => Some message
  end.

(** The message of the promise that rejects first. *)
Fixpoint first_rejection (order : list fetch) (rejected : fetch -> option string)
    : option string :=
  match order with
  | [] => None
  | f :: rest =>
      match rejected f with
      | Some message => Some message
      | None => first_rejection rest rejected
      end
  end.

(** Whether a call of a chain fetch is still running when it returns: it
    is, unless [new PublicKey(address)] throws, which happens before the
    first [await]. A call of [getTokenInfo] always is. *)
Definition awaits_node (address : string) : bool :=
  match newPublicKey w address with
  | Returned _ => true
  | Thrown _ => false
  end.

(** The answers arrive one by one: the lines logged until the first promise
    of [answers] rejects, the message it rejects with, and the lines the
    promises that settle after it log. *)
Fixpoint until_rejection (rejected : fetch -> option string)
    (lines : fetch -> list string) (answers : list fetch)
    : option string * list string * list string :=
  match answers with
  | [] => (None, [], [])
  | f :: rest =>
      match rejected f with
      | Some message => (Some message, lines f, flat_map lines rest)
      | None =>
          let '(r, before, after) := until_rejection rejected lines rest in
          (r, (lines f ++ before)%list, after)
      end
  end.

(** [Promise.all([pa, pb, pc])] for three calls made one after the other
    without waiting. Each call comes with whether it is still running when
    it returns. The calls that are not have settled, and logged, in the
    order of the calls, before anything else happens. The others settle when
    the outside world answers: one answer at a time, in the order [order].
    The promise fulfils with the three values when every call does, and
    rejects with the error of the first call to reject. The result is what
    the promise settles with, the lines logged until then, and beside it
    the lines that the calls still running log afterwards. *)
Definition Promise_all {A B C} (order : settle_order)
    (pa : bool * M A) (pb : bool * M B) (pc : bool * M C)
    : M (A * B * C) * list string :=
  let running f :=
    match f with
    | FAccount => fst pa
    | FTransactions => fst pb
    | FMarket => fst pc
    end in
  let rejected f :=
    match f with
    | FAccount => rejection (result (snd pa))
    | FTransactions => rejection (result (snd pb))
    | FMarket => rejection (result (snd pc))
    end in
  let lines f :=
    match f with
    | FAccount => logged (snd pa)
    | FTransactions => logged (snd pb)
    | FMarket => logged (snd pc)
    end in
  let at_once := filter (fun f => negb (running f)) [FAccount; FTransactions; FMarket] in
  let answers := filter running (order_list order) in
  match result (snd pa), result (snd pb), result (snd pc) with
  | Returned a, Returned b, Returned c =>
      ((Returned (a, b, c), (flat_map lines at_once ++ flat_map lines answers)%list), [])
  | _, _, _ =>
      match first_rejection at_once rejected with
      | Some message =>
          ((Thrown message, flat_map lines at_once), flat_map lines answers)
      | None =>
          let '(r, before, after) := until_rejection rejected lines answers in
          ((Thrown (match r with Some message => message | None => "" end),
            (flat_map lines at_once ++ before)%list), after)
      end
  end.

(** The promise of [analyzeToken]: what it settles with and the lines logged
    until then, and beside it the lines that the fetches still running log
    afterwards. *)
Definition analyzeToken_promise (order : settle_order) (address tokenSymbol : string)
    : M (Analysis (number w)) * list string :=
  let (all, afterwards) :=
    Promise_all order
      (awaits_node address, getAccountInfo address)
      (awaits_node address, getTokenTransactions address)
      (true, getTokenInfo tokenSymbol) in
  (try_catch
     (fetched <- all ;;
      let '(accountInfo, transactions, tokenDetails) := fetched in
      let isHoneypot := checkHoneypotLogic (Some accountInfo) transactions in
      let ownership := checkOwnership (Some accountInfo) in
      ret (mkAnalysis
             (if isHoneypot then "⚠️ High Risk" else "✅ No Honeypot Detected")
             ownership
             tokenDetails
             (slice0 5 transactions)))
     (fun message =>
        log_error ("Error analyzing token: " ++ message) ;;;
        throw ANALYSIS_FAILED),
   afterwards).

(** A call of [analyzeToken]: what its promise settles with, and every line
    logged because of the call, in the order the lines are logged. *)
Definition analyzeToken (order : settle_order) (address tokenSymbol : string)
    : M (Analysis (number w)) :=
  let (settled, afterwards) := analyzeToken_promise order address tokenSymbol in
  (result settled, (logged settled ++ afterwards)%list).

(** The report [analyzeToken] builds from the three fetched values. *)
Definition report (accountInfo : AccountInfo) (txs : list Transaction)
    (details : TokenDetails (number w)) : Analysis (number w) :=
  mkAnalysis
    (if checkHoneypotLogic (Some accountInfo) txs
     then "⚠️ High Risk" else "✅ No Honeypot Detected")
    (checkOwnership (Some accountInfo))
    details
    (slice0 5 txs).

End Pipeline.

(** ** A concrete world

    A node that knows two accounts and cannot be reached for a third, and a
    provider that lists one coin, lists another without its numbers and
    cannot be reached for a third;
    numbers are integers written in decimal, symbols are ASCII. *)
Module Demo.

Definition decimal (n : Z) : string := NilZero.string_of_int (Z.to_int n).

(** Digits in groups of three, from the right. *)
Fixpoint group3 (reversed : list ascii) (k : nat) : list ascii :=
  match reversed with
  | [] => []
  | d :: rest =>
      match k with
      | 3%nat => ","%char :: d :: group3 rest 1
      | _ => d :: group3 rest (S k)
      end
  end.

Definition grouped (n : Z) : string :=
  string_of_list_ascii
    (rev (group3 (rev (list_ascii_of_string (decimal n))) 0)).

(** Lower case of the letters A to Z. *)
Definition lower (c : ascii) : ascii :=
  let n := nat_of_ascii c in
  if ((65 <=? n) && (n <=? 90))%nat then ascii_of_nat (n + 32) else c.

Fixpoint lowercase (s : string) : string :=
  match s with
  | EmptyString => EmptyString
  | String c rest => String (lower c) (lowercase rest)
  end.

Definition sig (n : Z) (e : option string) : Solana.SignatureInfo :=
  {| Solana.signature := "sig" ++ decimal n; Solana.err := e |}.

Definition history : list Solana.SignatureInfo :=
  [sig 1 None; sig 2 (Some "InstructionError"); sig 3 None; sig 4 None; sig 5 None;
   sig 6 None; sig 7 (Some "InsufficientFundsForFee"); sig 8 None; sig 9 None;
   sig 10 None].

Definition node_account (key : string) : outcome (option (Solana.AccountData string)) :=
  if String.eqb key "Busy" then
    Returned (Some (Solana.mkAccountData "TokenkegQfeZyiNwAJbNbGKPFXCWuBvf9Ss623VQ5DA" 2039280%Z))
  else if String.eqb key "Fresh" then
    Returned (Some (Solana.mkAccountData "11111111111111111111111111111111" 1%Z))
  else if String.eqb key "Down" then Thrown "fetch failed"
  else Returned None.

Definition node_signatures (key : string) (limit : Z)
    : outcome (list Solana.SignatureInfo) :=
  if String.eqb key "Busy" then Returned (firstn (Z.to_nat limit) history)
  else if String.eqb key "Down" then Thrown "fetch failed"
  else Returned [].

Definition markets (url vs_currency ids : string)
    : outcome (list (CoinGecko.Coin Z)) :=
  if String.eqb ids "solana" then
    Returned [CoinGecko.mkCoin "Solana" "sol" (Number 150%Z) (Number 70000000000%Z)]
  else if String.eqb ids "unlisted" then
    Returned [CoinGecko.mkCoin "Unlisted" "unl" Null Null]
  else if String.eqb ids "offline" then Thrown "Network Error"
  else Returned [].

Definition world : World :=
  {| PublicKey := string;
     number := Z;
     newPublicKey := fun address =>
       if String.eqb address "" then Thrown "Invalid public key input"
       else Returned address;
     toBase58 := fun key => key;
     connection_getAccountInfo := node_account;
     connection_getConfirmedSignaturesForAddress2 := node_signatures;
     axios_get := markets;
     toLowerCase := lowercase;
     numberToString := decimal;
     toLocaleString := grouped;
     TypeError_message := fun v p =>
       "Cannot read properties of " ++ v ++ " (reading '" ++ p ++ "')" |}.

End Demo.

(** ** Chat layer *)

(** The line feed of ['\n'] and of the line ends inside a template literal. *)
Definition LF_char : ascii := ascii_of_nat 10.

Definition LF : string := String LF_char EmptyString.

(** The text of an array index, or of an index plus one, inside a template
    literal: its decimal digits. *)
Definition index_text (n : nat) : string := NilZero.string_of_uint (Nat.to_uint n).

(** [array.map((x, index) => f(x, index))], from position [index] on. *)
Fixpoint map_index {A B} (f : A -> nat -> B) (l : list A) (index : nat) : list B :=
  match l with
  | [] => []
  | x :: rest => f x index :: map_index f rest (S index)
  end.

(** [array.join(separator)] *)
Definition join (separator : string) (l : list string) : string :=
  String.concat separator l.

(** [s.split(c)] for a separator of one character below 128. *)
Fixpoint js_split (separator : ascii) (s : string) : list string :=
  match s with
  | EmptyString => [EmptyString]
  | String c rest =>
      if Ascii.eqb c separator then EmptyString :: js_split separator rest
      else
        match js_split separator rest with
        | [] => [String c EmptyString]
        | piece :: pieces => String c piece :: pieces
        end
  end.

(** The line [formatTransactions] writes for the transaction at [index]. *)
Definition transaction_line (tx : Transaction) (index : nat) : string :=
  index_text (index + 1) ++ ". TxID: " ++ txId tx.

Definition formatTransactions (transactions : option (list Transaction)) : string :=
  match transactions with
  | None => "No recent transactions."
  | Some transactions =>
      if (length transactions =? 0)%nat then "No recent transactions."
      else join LF (map_index transaction_line transactions 0)
  end.

(** What a value becomes inside a template literal. *)
Definition template_text (w : World) (v : JsValue (number w)) : string :=
  match v with
  | JsNumber n => numberToString w n
  | JsString s => s
  end.

(** [limiter.schedule(task)] settles as the task does, and when it does:
    with the options of the limiter no job is dropped. When the task starts
    is the matter of [Limiter] below. *)
Definition limiter_schedule {T} (task : T) : T := task.

(** What a handler of the bot does: the texts it passes to [ctx.reply], in
    the order of the calls, and the messages it and the functions it calls
    pass to [logger.info] and to [logger.error], in the order they are
    logged. *)
Record Handled : Type := mkHandled {
  replies : list string;
  infos : list string;
  errors : list string
}.

Definition USAGE : string := "❌ Usage: /check <TOKEN_ADDRESS> <TOKEN_SYMBOL>".

Definition ANALYZING : string := "🔍 Analyzing the token. Please wait...".

(** The text of the reply that carries the report. *)
Definition analysis_reply (w : World) (analysis : Analysis (number w)) : string :=
  LF ++ "            🧾 **Token Analysis:**"
  ++ LF ++ "            - **Honeypot Risk**: " ++ honeypot analysis
  ++ LF ++ "            - **Ownership**: " ++ ownership analysis
  ++ LF ++ "            - **Token Details**: "
  ++ LF ++ "                Name: " ++ name (tokenDetails analysis)
  ++ LF ++ "                Symbol: " ++ symbol (tokenDetails analysis)
  ++ LF ++ "                Price: " ++ template_text w (price (tokenDetails analysis))
  ++ LF ++ "                Market Cap: "
        ++ template_text w (marketCap (tokenDetails analysis))
  ++ LF ++ "            - **Recent Transactions**: "
        ++ formatTransactions (Some (transactions analysis))
  ++ LF ++ "        ".

(** The [try] and [catch] of the handler of [/check]. *)
Definition check_analysis (w : World) (order : settle_order)
    (address symbol : string) : Handled :=
  let (task, afterwards) :=
    limiter_schedule (analyzeToken_promise w order address symbol) in
  match result task with
  | Returned analysis =>
      {| replies := [ANALYZING; analysis_reply w analysis];
         infos := ["Analysis completed for token: " ++ symbol
                   ++ ", address: " ++ address];
         errors := (logged task ++ afterwards)%list |}
  | Thrown message =>
      {| replies := [ANALYZING; "❌ Error: " ++ message];
         infos := [];
         errors := (logged task
                    ++ [("Error during analysis for token: " ++ symbol
                         ++ ", address: " ++ address)%string]
                    ++ afterwards)%list |}
  end.

(** The handler of [/check], on the text of the message. *)
Definition check_command (w : World) (order : settle_order) (text : string)
    : Handled :=
  let args := skipn 1 (js_split " " text) in
  if (length args <? 2)%nat then
    {| replies := [USAGE]; infos := []; errors := [] |}
  else
    let address := nth 0 args "" in
    let symbol := nth 1 args "" in
    check_analysis w order address symbol.

(** How often a character occurs in a text. *)
Fixpoint occurrences (c : ascii) (s : string) : nat :=
  match s with
  | EmptyString => 0
  | String d rest => (if Ascii.eqb d c then 1 else 0) + occurrences c rest
  end.

(** How many of the three fetches of an analysis fail. *)
Definition failures (w : World) (address tokenSymbol : string) : nat :=
  (if failed (result (getAccountInfo w address)) then 1 else 0)
  + (if failed (result (getTokenTransactions w address)) then 1 else 0)
  + (if failed (result (getTokenInfo w tokenSymbol)) then 1 else 0).

(** The three fetches of an analysis, one by one. *)
Definition fetch_failed (w : World) (address tokenSymbol : string) (f : fetch) : bool :=
  match f with
  | FAccount => failed (result (getAccountInfo w address))
  | FTransactions => failed (result (getTokenTransactions w address))
  | FMarket => failed (result (getTokenInfo w tokenSymbol))
  end.

Definition fetch_log (w : World) (address tokenSymbol : string) (f : fetch)
    : list string :=
  match f with
  | FAccount => logged (getAccountInfo w address)
  | FTransactions => logged (getTokenTransactions w address)
  | FMarket => logged (getTokenInfo w tokenSymbol)
  end.

(** The message a fetch rejects with. *)
Definition fetch_message (f : fetch) : string :=
  match f with
  | FAccount => "Failed to fetch account info."
  | FTransactions => "Failed to fetch transactions."
  | FMarket => "Failed to retrieve token info."
  end.

(** The order in which the promises of the three fetches settle: the order
    of the answers, but the two chain fetches first, in the order of the
    calls, when the address is not well formed. *)
Definition settles (w : World) (order : settle_order) (address : string) : list fetch :=
  if awaits_node w address then order_list order
  else [FAccount; FTransactions; FMarket].

(** The lines logged until the first rejection, that of the fetch [f], is
    handled: the line of [f], or the lines of both chain fetches for an
    address that is not well formed. *)
Definition lines_before (w : World) (address tokenSymbol : string) (f : fetch)
    : list string :=
  if awaits_node w address then fetch_log w address tokenSymbol f
  else (fetch_log w address tokenSymbol FAccount
        ++ fetch_log w address tokenSymbol FTransactions)%list.

(** ** The rate limiter *)

(** Modelled from the spec: the Rate Limiter of section 4.1; the package
    that implements it is not part of the repository. Jobs are served in
    the order of their submission. A job starts at the earliest time that
    is not before its submission, that is at least [minTime] after the
    start of the job before it, and at which fewer than [maxConcurrent] of
    the jobs before it are still running. Times are whole time units. *)
Module Limiter.

(** A submitted job: when it is submitted and how long it runs once
    started. *)
Record job : Type := mkJob {
  submitted : nat;
  duration : nat
}.

(** A started job runs from its start up to, and not including, its end. *)
Definition slot : Type := (nat * nat)%type.

Definition runs_at (t : nat) (s : slot) : bool :=
  ((fst s <=? t) && (t <? snd s))%nat.

(** How many jobs run at time [t]. *)
Definition running (t : nat) (slots : list slot) : nat :=
  length (filter (runs_at t) slots).

(** Starts that are, in order, at least [gap] apart. *)
Fixpoint spaced_after (gap previous : nat) (starts : list nat) : bool :=
  match starts with
  | [] => true
  | t :: rest => ((previous + gap <=? t)%nat && spaced_after gap t rest)%bool
  end.

Definition spaced (gap : nat) (starts : list nat) : bool :=
  match starts with
  | [] => true
  | t :: rest => spaced_after gap t rest
  end.

Section Options.

Variables minTime maxConcurrent : nat.

(** Modelled from the spec: the minimum spacing between the starts of
    consecutive jobs. The earliest start the spacing allows; [started] holds
    the jobs started so far, the latest first. *)
Definition ready (started : list slot) (submitted : nat) : nat :=
  match started with
  | [] => submitted
  | latest :: _ => Nat.max submitted (fst latest + minTime)
  end.

(** Modelled from the spec: no more than [maxConcurrent] jobs run at a
    time. The earliest time from [from] on at which a place is free: [from]
    itself, or the end of a running job. *)
Definition earliest_free (started : list slot) (from : nat) : nat :=
  match filter (fun t => ((from <=? t) && (running t started <? maxConcurrent))%nat)
               (from :: map snd started) with
  | [] => list_max (from :: map snd started)
  | t :: ts => fold_right Nat.min t ts
  end.

(** Modelled from the spec: one queue, served in the order of submission. *)
Fixpoint serve (started : list slot) (jobs : list job) : list slot :=
  match jobs with
  | [] => []
  | j :: rest =>
      let start := earliest_free started (ready started (submitted j)) in
      let s := (start, (start + duration j)%nat) in
      s :: serve (s :: started) rest
  end.

(** Modelled from the spec: the slots the limiter gives to the jobs, in the
    order of their submission. *)
Definition schedule (jobs : list job) : list slot := serve [] jobs.

End Options.

(** No job of [rest] started after [latest]. *)
Definition in_order (started : list slot) : Prop :=
  match started with
  | [] => True
  | latest :: rest => Forall (fun s => (fst s <= fst latest)%nat) rest
  end.

(** At no time more than [maxConcurrent] of the jobs run. *)
Definition within (maxConcurrent : nat) (slots : list slot) : Prop :=
  forall t, (running t slots <= maxConcurrent)%nat.

End Limiter.

(** ** Sessions *)

(** A message that carries the command [/check]: when it is received, its
    text, and how long its analysis runs once started, which the network
    decides. *)
Record Check : Type := mkCheck {
  received : nat;
  message : string;
  lasts : nat
}.

(** Whether the handler gets past its usage check, and so submits a job to
    the limiter. *)
Definition submits (text : string) : bool :=
  negb (length (skipn 1 (js_split " " text)) <? 2)%nat.

(** The first and the second argument of the command. *)
Definition address_of (text : string) : string :=
  nth 0 (skipn 1 (js_split " " text)) "".

Definition symbol_of (text : string) : string :=
  nth 1 (skipn 1 (js_split " " text)) "".

(** The jobs the handler submits to the limiter during a session: one for
    each message that gets past the usage check, submitted when the message
    is received. *)
Definition jobs_of (session : list Check) : list Limiter.job :=
  map (fun c => Limiter.mkJob (received c) (lasts c))
      (filter (fun c => submits (message c)) session).

(** When the analyses of a session run. *)
Definition analysis_slots (session : list Check) : list Limiter.slot :=
  Limiter.schedule (Z.to_nat limiter.minTime) (Z.to_nat limiter.maxConcurrent)
    (jobs_of session).

(** The calls of the outside world an analysis makes when it starts: the
    two calls of the node only for an address that is well formed. *)
Definition issued (w : World) (address : string) : list fetch :=
  if awaits_node w address then [FAccount; FTransactions; FMarket] else [FMarket].

(** The outbound calls of a session, each with the time it is made: an
    analysis makes its calls when its job starts, one after the other
    without waiting. *)
Definition outbound_calls (w : World) (session : list Check) : list (fetch * nat) :=
  flat_map
    (fun cs : Check * Limiter.slot =>
       map (fun f => (f, fst (snd cs))) (issued w (address_of (message (fst cs)))))
    (combine (filter (fun c => submits (message c)) session) (analysis_slots session)).

(** * Properties *)

(** ** Risk evaluator *)

Lemma is_receive_iff (tx : Transaction) :
  is_receive tx = true <-> type tx = "receive".
Proof. unfold is_receive. apply String.eqb_eq. Qed.

Lemma every_receive_iff (txs : list Transaction) :
  every is_receive txs = true <-> forall tx, In tx txs -> type tx = "receive".
Proof.
  unfold every. rewrite forallb_forall.
  split; intros H tx Hin; apply is_receive_iff, H, Hin.
Qed.

Lemma every_receive_false (txs : list Transaction) :
  (exists tx, In tx txs /\ type tx <> "receive") -> every is_receive txs = false.
Proof.
  intros [tx [Hin Hty]].
  destruct (every is_receive txs) eqn:E; [|reflexivity].
  exfalso. apply Hty. exact (proj1 (every_receive_iff txs) E tx Hin).
Qed.

Lemma nonempty_length {A} (l : list A) : l <> [] -> (length l =? 0)%nat = false.
Proof. destruct l; [congruence | reflexivity]. Qed.

(** With the account present and a history that is not empty, the verdict
    is decided by the [every] test alone. *)
Lemma checkHoneypotLogic_present (a : AccountInfo) (txs : list Transaction) :
  txs <> [] -> checkHoneypotLogic (Some a) txs = every is_receive txs.
Proof.
  intros Hne. unfold checkHoneypotLogic.
  rewrite (nonempty_length txs Hne). simpl.
  destruct (every is_receive txs); reflexivity.
Qed.

(** C1, as stated, fails: with the account absent, a history that holds a
    transaction that is not of type 'receive' is still reported as high
    risk ([true]), not as "none detected" ([false]). *)
Lemma C1_absent_account_counterexample :
  let txs := [ {| txId := "sig1"; type := "confirmed" |} ] in
  txs <> []
  /\ (exists tx, In tx txs /\ type tx <> "receive")
  /\ checkHoneypotLogic None txs = true
  /\ checkHoneypotLogic None txs <> false.
Proof.
  simpl. split; [discriminate|]. split; [|split; [reflexivity|discriminate]].
  eexists. split; [left; reflexivity|]. simpl. discriminate.
Qed.

(** C1 (amended): for every present accountInfo and every non-empty
    transaction sequence, [checkHoneypotLogic] returns [true] (high risk)
    when every element has type 'receive', and [false] (none detected) when
    at least one element has another type. *)
Theorem C1_checkHoneypotLogic_present_nonempty
    (a : AccountInfo) (txs : list Transaction) :
  txs <> [] ->
  ((forall tx, In tx txs -> type tx = "receive") ->
     checkHoneypotLogic (Some a) txs = true)
  /\ ((exists tx, In tx txs /\ type tx <> "receive") ->
     checkHoneypotLogic (Some a) txs = false).
Proof.
  intros Hne. rewrite (checkHoneypotLogic_present a txs Hne). split.
  - apply every_receive_iff.
  - apply every_receive_false.
Qed.

Lemma C1_checkHoneypotLogic_present_nonempty_witness :
  let a := {| owner := "TokenkegQfeZyiNwAJbNbGKPFXCWuBvf9Ss623VQ5DA"; lamports := 5 |} in
  let txs := [ {| txId := "sig1"; type := "receive" |};
               {| txId := "sig2"; type := "confirmed" |} ] in
  txs <> []
  /\ ((forall tx, In tx txs -> type tx = "receive") ->
        checkHoneypotLogic (Some a) txs = true)
  /\ ((exists tx, In tx txs /\ type tx <> "receive") ->
        checkHoneypotLogic (Some a) txs = false).
Proof.
  simpl. split; [discriminate|].
  apply (C1_checkHoneypotLogic_present_nonempty
           {| owner := "TokenkegQfeZyiNwAJbNbGKPFXCWuBvf9Ss623VQ5DA"; lamports := 5 |}
           [ {| txId := "sig1"; type := "receive" |};
             {| txId := "sig2"; type := "confirmed" |} ]).
  discriminate.
Defined.

(** C8: [checkHoneypotLogic] returns [true] (high risk) whenever the
    transaction sequence is empty, whatever the account, and whenever the
    account is absent, whatever the transactions. *)
Theorem C8_checkHoneypotLogic_empty_or_absent :
  (forall accountInfo, checkHoneypotLogic accountInfo [] = true)
  /\ (forall txs, checkHoneypotLogic None txs = true).
Proof.
  split.
  - intros [a|]; reflexivity.
  - intros txs. reflexivity.
Qed.

(** ** Ownership *)

Lemma append_inj_l (p s1 s2 : string) : p ++ s1 = p ++ s2 -> s1 = s2.
Proof.
  induction p as [|c p IH]; simpl; intros H; [exact H|].
  injection H as H. exact (IH H).
Qed.

(** C3: [checkOwnership] is total and its three outcomes exclude each
    other: no account gives the "unknown" text, an owner equal to the system
    identity gives the "centralized" text, every other owner gives the
    "owner" text that carries the owner identity; the three texts are
    distinct and the owner can be read back from the third. *)
Theorem C3_checkOwnership_total (accountInfo : option AccountInfo) :
  ((accountInfo = None /\ checkOwnership accountInfo = "❓ Unknown")
   \/ (exists a, accountInfo = Some a /\ owner a = SYSTEM_PROGRAM
               /\ checkOwnership accountInfo = "🚨 Centralized Ownership")
   \/ (exists a, accountInfo = Some a /\ owner a <> SYSTEM_PROGRAM
               /\ checkOwnership accountInfo = "✅ Owner: " ++ owner a))
  /\ "❓ Unknown" <> "🚨 Centralized Ownership"
  /\ (forall o, "✅ Owner: " ++ o <> "❓ Unknown")
  /\ (forall o, "✅ Owner: " ++ o <> "🚨 Centralized Ownership")
  /\ (forall o1 o2, "✅ Owner: " ++ o1 = "✅ Owner: " ++ o2 -> o1 = o2).
Proof.
  split; [|split; [|split; [|split]]].
  - destruct accountInfo as [a|].
    + right. simpl. destruct (String.eqb_spec (owner a) SYSTEM_PROGRAM) as [E|E].
      * left. exists a. auto.
      * right. exists a. auto.
    + left. split; reflexivity.
  - discriminate.
  - intros o. simpl. discriminate.
  - intros o. simpl. discriminate.
  - intros o1 o2. apply append_inj_l.
Qed.

(** ** Fetches *)

Section FetchFacts.

Context (w : World).

Lemma getAccountInfo_run (address : string) :
  getAccountInfo w address =
  let fails e := rethrown "Failed to fetch account info."
                   ("Error fetching account info for " ++ address ++ ": " ++ e) in
  match newPublicKey w address with
  | Thrown e => fails e
  | Returned key =>
      match connection_getAccountInfo w key with
      | Thrown e => fails e
      | Returned None => fails "Account not found"
      | Returned (Some a) =>
          (Returned {| owner := toBase58 w (Solana.owner a);
                       lamports := Solana.lamports a |}, [])
      end
  end.
Proof.
  unfold getAccountInfo, rethrown, try_catch, bind, lift, throw, ret, log_error.
  destruct (newPublicKey w address) as [key|e]; [|reflexivity].
  destruct (connection_getAccountInfo w key) as [[a|]|e]; reflexivity.
Qed.

Lemma getTokenTransactions_run (address : string) :
  getTokenTransactions w address =
  let fails e := rethrown "Failed to fetch transactions."
                   ("Error fetching transactions for " ++ address ++ ": " ++ e) in
  match newPublicKey w address with
  | Thrown e => fails e
  | Returned key =>
      match connection_getConfirmedSignaturesForAddress2 w key 10 with
      | Thrown e => fails e
      | Returned sigs =>
          (Returned (map (fun tx => {| txId := Solana.signature tx;
                                       type := tx_type tx |}) sigs), [])
      end
  end.
Proof.
  unfold getTokenTransactions, rethrown, try_catch, bind, lift, throw, ret, log_error.
  destruct (newPublicKey w address) as [key|e]; [|reflexivity].
  destruct (connection_getConfirmedSignaturesForAddress2 w key 10) as [sigs|e];
    reflexivity.
Qed.

Lemma getTokenInfo_run (symbol : string) :
  getTokenInfo w symbol =
  let fails e := rethrown "Failed to retrieve token info."
                   ("Error fetching token info: " ++ e) in
  match axios_get w (config.COINGECKO_API_URL ++ "/coins/markets") "usd"
          (toLowerCase w symbol) with
  | Thrown e => fails e
  | Returned [] => fails "Token not found."
  | Returned (token :: _) =>
      match CoinGecko.market_cap token with
      | Undefined => fails (TypeError_message w "undefined" "toLocaleString")
      | Null => fails (TypeError_message w "null" "toLocaleString")
      | Number cap =>
          (Returned
             {| name := CoinGecko.name token;
                symbol := CoinGecko.symbol token;
                price := JsString ("$" ++ number_text w (CoinGecko.current_price token));
                marketCap := JsString ("$" ++ toLocaleString w cap) |}, [])
      end
  end.
Proof.
  unfold getTokenInfo, toLocaleString_of, rethrown, try_catch, bind, lift, throw, ret,
    log_error.
  destruct (axios_get w _ _ _) as [[|token rest]|e]; try reflexivity.
  destruct (CoinGecko.market_cap token); reflexivity.
Qed.

(** The types written by [getTokenTransactions]. *)
Lemma tx_type_cases (tx : Solana.SignatureInfo) :
  (Solana.err tx <> None /\ tx_type tx = "failed")
  \/ (Solana.err tx = None /\ tx_type tx = "confirmed").
Proof.
  unfold tx_type. destruct (Solana.err tx) as [e|].
  - left. split; [discriminate | reflexivity].
  - right. split; reflexivity.
Qed.

Lemma getTokenTransactions_Returned (address : string) (txs : list Transaction) :
  result (getTokenTransactions w address) = Returned txs ->
  exists key sigs,
    newPublicKey w address = Returned key
    /\ connection_getConfirmedSignaturesForAddress2 w key 10 = Returned sigs
    /\ txs = map (fun tx => {| txId := Solana.signature tx; type := tx_type tx |}) sigs.
Proof.
  rewrite getTokenTransactions_run. cbv zeta.
  destruct (newPublicKey w address) as [key|e] eqn:Ekey; [|discriminate].
  destruct (connection_getConfirmedSignaturesForAddress2 w key 10) as [sigs|e] eqn:Esigs;
    [|discriminate].
  simpl. intros H. injection H as <-. exists key, sigs.
  repeat split; [exact Esigs].
Qed.

Lemma fetched_types (address : string) (txs : list Transaction) :
  result (getTokenTransactions w address) = Returned txs ->
  Forall (fun tx => type tx = "confirmed" \/ type tx = "failed") txs.
Proof.
  intros H. destruct (getTokenTransactions_Returned address txs H)
    as (key & sigs & _ & _ & ->).
  apply Forall_forall. intros tx Hin. apply in_map_iff in Hin.
  destruct Hin as (s & <- & _). simpl.
  destruct (tx_type_cases s) as [[_ E]|[_ E]]; rewrite E; auto.
Qed.

Lemma fetched_never_receive (address : string) (txs : list Transaction) :
  result (getTokenTransactions w address) = Returned txs ->
  txs <> [] -> every is_receive txs = false.
Proof.
  intros H Hne. pose proof (fetched_types address txs H) as Hty.
  destruct txs as [|tx rest]; [congruence|].
  apply every_receive_false. exists tx. split; [left; reflexivity|].
  apply Forall_inv in Hty. destruct Hty as [E|E]; rewrite E; discriminate.
Qed.

(** *** Orchestrator *)

Lemma Promise_all_settles {A B C} (order : settle_order)
    (pa : bool * M A) (pb : bool * M B) (pc : bool * M C) :
  match result (snd pa), result (snd pb), result (snd pc) with
  | Returned a, Returned b, Returned c =>
      result (fst (Promise_all order pa pb pc)) = Returned (a, b, c)
  | _, _, _ => exists message, result (fst (Promise_all order pa pb pc)) = Thrown message
  end.
Proof.
  unfold Promise_all.
  destruct (result (snd pa)), (result (snd pb)), (result (snd pc)); try reflexivity;
    (destruct (first_rejection _ _); [eexists; reflexivity|];
     destruct (until_rejection _ _ _) as [[r before] after]; eexists; reflexivity).
Qed.

Lemma analyzeToken_result (order : settle_order) (address tokenSymbol : string) :
  result (analyzeToken w order address tokenSymbol) =
  match result (getAccountInfo w address),
        result (getTokenTransactions w address),
        result (getTokenInfo w tokenSymbol) with
  | Returned a, Returned txs, Returned details => Returned (report w a txs details)
  | _, _, _ => Thrown ANALYSIS_FAILED
  end.
Proof.
  unfold analyzeToken, analyzeToken_promise.
  pose proof (Promise_all_settles order
                (awaits_node w address, getAccountInfo w address)
                (awaits_node w address, getTokenTransactions w address)
                (true, getTokenInfo w tokenSymbol)) as H.
  cbn [snd] in H.
  destruct (Promise_all order _ _ _) as [[r l] afterwards]. cbn [fst result] in H.
  destruct (result (getAccountInfo w address)) as [a|];
    destruct (result (getTokenTransactions w address)) as [txs|];
    destruct (result (getTokenInfo w tokenSymbol)) as [details|];
    [ subst r; reflexivity | destruct H as [message ->]; reflexivity .. ].
Qed.

Lemma analyzeToken_Returned (order : settle_order) (address tokenSymbol : string)
    (r : Analysis (number w)) :
  result (analyzeToken w order address tokenSymbol) = Returned r ->
  exists a txs details,
    result (getAccountInfo w address) = Returned a
    /\ result (getTokenTransactions w address) = Returned txs
    /\ result (getTokenInfo w tokenSymbol) = Returned details
    /\ r = report w a txs details.
Proof.
  rewrite analyzeToken_result.
  destruct (result (getAccountInfo w address)) as [a|];
    destruct (result (getTokenTransactions w address)) as [txs|];
    destruct (result (getTokenInfo w tokenSymbol)) as [details|];
    try discriminate.
  intros H. injection H as <-. exists a, txs, details.
  repeat split; reflexivity.
Qed.

(** A fetch that fails always fails with its own fixed message. *)
Lemma getAccountInfo_Thrown (address e : string) :
  result (getAccountInfo w address) = Thrown e -> e = "Failed to fetch account info.".
Proof.
  rewrite getAccountInfo_run. cbv zeta. unfold rethrown.
  destruct (newPublicKey w address) as [key|e1]; simpl; [|congruence].
  destruct (connection_getAccountInfo w key) as [[a|]|e2]; simpl; congruence.
Qed.

Lemma getTokenTransactions_Thrown (address e : string) :
  result (getTokenTransactions w address) = Thrown e ->
  e = "Failed to fetch transactions.".
Proof.
  rewrite getTokenTransactions_run. cbv zeta. unfold rethrown.
  destruct (newPublicKey w address) as [key|e1]; simpl; [|congruence].
  destruct (connection_getConfirmedSignaturesForAddress2 w key 10) as [sigs|e2];
    simpl; congruence.
Qed.

Lemma getTokenInfo_Thrown (tokenSymbol e : string) :
  result (getTokenInfo w tokenSymbol) = Thrown e ->
  e = "Failed to retrieve token info.".
Proof.
  rewrite getTokenInfo_run. cbv zeta. unfold rethrown.
  destruct (axios_get w _ _ _) as [[|token rest]|e1]; simpl; try congruence.
  destruct (CoinGecko.market_cap token); simpl; congruence.
Qed.

(** A fetch returns and logs nothing, or it rejects with its fixed message
    and logs one line. *)
Lemma getAccountInfo_shape (address : string) :
  (exists a, getAccountInfo w address = (Returned a, []))
  \/ (exists line,
        getAccountInfo w address = (Thrown "Failed to fetch account info.", [line])).
Proof.
  rewrite getAccountInfo_run. cbv zeta. unfold rethrown.
  destruct (newPublicKey w address) as [key|e]; [|right; eexists; reflexivity].
  destruct (connection_getAccountInfo w key) as [[a|]|e];
    [left | right | right]; eexists; reflexivity.
Qed.

Lemma getTokenTransactions_shape (address : string) :
  (exists txs, getTokenTransactions w address = (Returned txs, []))
  \/ (exists line,
        getTokenTransactions w address = (Thrown "Failed to fetch transactions.", [line])).
Proof.
  rewrite getTokenTransactions_run. cbv zeta. unfold rethrown.
  destruct (newPublicKey w address) as [key|e]; [|right; eexists; reflexivity].
  destruct (connection_getConfirmedSignaturesForAddress2 w key 10) as [sigs|e];
    [left | right]; eexists; reflexivity.
Qed.

Lemma getTokenInfo_shape (tokenSymbol : string) :
  (exists details, getTokenInfo w tokenSymbol = (Returned details, []))
  \/ (exists line,
        getTokenInfo w tokenSymbol = (Thrown "Failed to retrieve token info.", [line])).
Proof.
  rewrite getTokenInfo_run. cbv zeta. unfold rethrown.
  destruct (axios_get w _ _ _) as [[|token rest]|e];
    [right; eexists; reflexivity | | right; eexists; reflexivity].
  destruct (CoinGecko.market_cap token);
    [right | right | left]; eexists; reflexivity.
Qed.

(** For an address that is not well formed both chain fetches reject. *)
Lemma chain_fetches_at_once (address : string) :
  awaits_node w address = false ->
  failed (result (getAccountInfo w address)) = true
  /\ failed (result (getTokenTransactions w address)) = true.
Proof.
  unfold awaits_node. rewrite getAccountInfo_run, getTokenTransactions_run.
  destruct (newPublicKey w address); [discriminate|]. intros _. split; reflexivity.
Qed.

Lemma analyzeToken_unfold (order : settle_order) (address tokenSymbol : string) :
  analyzeToken w order address tokenSymbol
  = (result (fst (analyzeToken_promise w order address tokenSymbol)),
     (logged (fst (analyzeToken_promise w order address tokenSymbol))
      ++ snd (analyzeToken_promise w order address tokenSymbol))%list).
Proof.
  unfold analyzeToken. destruct (analyzeToken_promise w order address tokenSymbol).
  reflexivity.
Qed.

(** How a failing analysis unfolds: the first fetch to fail, in the order
    the promises settle, is the one the orchestrator names; its line, or
    the lines of both chain fetches for an address that is not well formed,
    come first, the line of the orchestrator next, and afterwards the lines
    of the fetches that fail later. *)
Lemma analyzeToken_promise_failure (order : settle_order) (address tokenSymbol : string) :
  failures w address tokenSymbol <> 0%nat ->
  exists f,
    find (fetch_failed w address tokenSymbol) (settles w order address) = Some f
    /\ fst (analyzeToken_promise w order address tokenSymbol)
       = (Thrown ANALYSIS_FAILED,
          (lines_before w address tokenSymbol f
           ++ [("Error analyzing token: " ++ fetch_message f)%string])%list)
    /\ (length (lines_before w address tokenSymbol f)
        + length (snd (analyzeToken_promise w order address tokenSymbol))
        = failures w address tokenSymbol)%nat.
Proof.
  pose proof (chain_fetches_at_once address) as Honce.
  unfold lines_before, analyzeToken_promise, Promise_all, settles, failures,
    fetch_failed, fetch_log in *.
  destruct (getAccountInfo_shape address) as [[a Ea]|[la Ea]];
    destruct (getTokenTransactions_shape address) as [[txs Et]|[lt Et]];
    destruct (getTokenInfo_shape tokenSymbol) as [[details Em]|[lm Em]];
    rewrite Ea, Et, Em in *;
    (destruct (awaits_node w address);
     [| try (destruct (Honce eq_refl) as [H1 H2]; cbn in H1, H2; discriminate)]);
    cbn; intros Hn; try congruence;
    destruct order; cbn; eexists; repeat split; reflexivity.
Qed.

Lemma analyzeToken_promise_success (order : settle_order) (address tokenSymbol : string) :
  failures w address tokenSymbol = 0%nat ->
  logged (fst (analyzeToken_promise w order address tokenSymbol)) = []
  /\ snd (analyzeToken_promise w order address tokenSymbol) = [].
Proof.
  pose proof (chain_fetches_at_once address) as Honce.
  unfold analyzeToken_promise, Promise_all, failures in *.
  destruct (getAccountInfo_shape address) as [[a Ea]|[la Ea]];
    destruct (getTokenTransactions_shape address) as [[txs Et]|[lt Et]];
    destruct (getTokenInfo_shape tokenSymbol) as [[details Em]|[lm Em]];
    rewrite Ea, Et, Em in *; cbn; intros Hn; try discriminate Hn.
  destruct (awaits_node w address);
    [| destruct (Honce eq_refl) as [H1 H2]; cbn in H1; discriminate].
  destruct order; cbn; split; reflexivity.
Qed.

End FetchFacts.

(** ** Claims on the pipeline *)

(** C2: when any of the three fetches fails, [analyzeToken] fails with the
    one generic error and returns no report, in whatever order the three
    promises settle. *)
Theorem C2_analyzeToken_fail_fast
    (w : World) (order : settle_order) (address tokenSymbol : string) :
  failed (result (getAccountInfo w address))
  || failed (result (getTokenTransactions w address))
  || failed (result (getTokenInfo w tokenSymbol)) = true ->
  result (analyzeToken w order address tokenSymbol) = Thrown ANALYSIS_FAILED
  /\ (forall r, result (analyzeToken w order address tokenSymbol) <> Returned r).
Proof.
  intros Hfail.
  assert (E : result (analyzeToken w order address tokenSymbol) = Thrown ANALYSIS_FAILED).
  { rewrite analyzeToken_result.
    destruct (result (getAccountInfo w address)) as [a|];
      destruct (result (getTokenTransactions w address)) as [txs|];
      destruct (result (getTokenInfo w tokenSymbol)) as [details|];
      try reflexivity.
    simpl in Hfail. discriminate. }
  split; [exact E|]. intros r. rewrite E. discriminate.
Qed.

Lemma C2_analyzeToken_fail_fast_witness :
  failed (result (getAccountInfo Demo.world "Busy"))
  || failed (result (getTokenTransactions Demo.world "Busy"))
  || failed (result (getTokenInfo Demo.world "doesnotexist")) = true
  /\ result (analyzeToken Demo.world TMA "Busy" "doesnotexist") = Thrown ANALYSIS_FAILED
  /\ (forall r, result (analyzeToken Demo.world TMA "Busy" "doesnotexist") <> Returned r).
Proof.
  split; [reflexivity|].
  apply (C2_analyzeToken_fail_fast Demo.world TMA "Busy" "doesnotexist").
  reflexivity.
Defined.

(** C4: in every successful analysis the [transactions] field is the head
    of the fetched sequence, at most 5 long: its length is the smaller of 5
    and the number of fetched records, so it is 5 when the node hands back
    its full window of 10. *)
Theorem C4_report_transactions_truncated
    (w : World) (order : settle_order) (address tokenSymbol : string)
    (r : Analysis (number w)) :
  result (analyzeToken w order address tokenSymbol) = Returned r ->
  exists fetched,
    result (getTokenTransactions w address) = Returned fetched
    /\ transactions r = firstn 5 fetched
    /\ length (transactions r) = Nat.min 5 (length fetched)
    /\ (length (transactions r) <= 5)%nat.
Proof.
  intros H. destruct (analyzeToken_Returned w order address tokenSymbol r H)
    as (a & txs & details & _ & Htx & _ & ->).
  exists txs. unfold report, slice0. cbn [transactions].
  rewrite length_firstn.
  repeat split; auto. apply Nat.le_min_l.
Qed.

Lemma C4_report_transactions_truncated_witness :
  exists r fetched,
    result (analyzeToken Demo.world ATM "Busy" "solana") = Returned r
    /\ result (getTokenTransactions Demo.world "Busy") = Returned fetched
    /\ length fetched = 10%nat
    /\ transactions r = firstn 5 fetched
    /\ length (transactions r) = 5%nat.
Proof.
  eexists.
  destruct (C4_report_transactions_truncated Demo.world ATM "Busy" "solana" _ eq_refl)
    as (fetched & Hf & Ht & Hl & _).
  exists fetched. split; [reflexivity|]. split; [exact Hf|].
  assert (Hlen : length fetched = 10%nat).
  { vm_compute in Hf. injection Hf as <-. reflexivity. }
  split; [exact Hlen|]. split; [exact Ht|].
  rewrite Hl, Hlen. reflexivity.
Defined.

(** C9: when the address is well formed and the node answers,
    [getTokenTransactions] returns one record per signature, in the same
    order, and logs nothing; an empty answer gives an empty sequence, not an
    error; a record has type 'failed' exactly when its transaction recorded
    an error and 'confirmed' exactly when it did not. *)
Theorem C9_getTokenTransactions_records
    (w : World) (address : string) (key : PublicKey w)
    (sigs : list Solana.SignatureInfo) :
  newPublicKey w address = Returned key ->
  connection_getConfirmedSignaturesForAddress2 w key 10 = Returned sigs ->
  exists txs,
    getTokenTransactions w address = (Returned txs, [])
    /\ length txs = length sigs
    /\ (sigs = [] -> txs = [])
    /\ Forall2 (fun s tx =>
                  txId tx = Solana.signature s
                  /\ (type tx = "failed" <-> Solana.err s <> None)
                  /\ (type tx = "confirmed" <-> Solana.err s = None)) sigs txs.
Proof.
  intros Hkey Hsigs. rewrite getTokenTransactions_run, Hkey, Hsigs.
  eexists. split; [reflexivity|]. split; [apply length_map|]. split.
  - intros ->. reflexivity.
  - clear Hsigs. induction sigs as [|s rest IH]; simpl; constructor; [|exact IH].
    simpl. split; [reflexivity|].
    destruct (tx_type_cases s) as [[He Ht]|[He Ht]]; rewrite Ht; split; split;
      intros H; first [reflexivity | assumption | discriminate H | congruence].
Qed.

Lemma C9_getTokenTransactions_records_witness :
  getTokenTransactions Demo.world "Fresh" = (Returned [], [])
  /\ exists txs,
       getTokenTransactions Demo.world "Busy" = (Returned txs, [])
       /\ length txs = 10%nat
       /\ Forall2 (fun s tx =>
                     txId tx = Solana.signature s
                     /\ (type tx = "failed" <-> Solana.err s <> None)
                     /\ (type tx = "confirmed" <-> Solana.err s = None))
                  Demo.history txs.
Proof.
  split.
  - destruct (C9_getTokenTransactions_records Demo.world "Fresh" "Fresh" []
                eq_refl eq_refl) as (txs & Hrun & _ & Hempty & _).
    rewrite Hrun, (Hempty eq_refl). reflexivity.
  - destruct (C9_getTokenTransactions_records Demo.world "Busy" "Busy" Demo.history
                eq_refl eq_refl) as (txs & Hrun & Hlen & _ & Hall).
    exists txs. split; [exact Hrun|]. split; [exact Hlen|exact Hall].
Defined.

(** C6, as stated, fails: for an account the node does not know
    [getAccountInfo] does not fail with 'Account not found' but with the
    same generic error as for an unreachable node, and for a symbol the
    provider does not list [getTokenInfo] does not fail with
    'Token not found.' but with the same generic error as for a network
    failure. *)
Lemma C6_component_errors_counterexample :
  (connection_getAccountInfo Demo.world "Nobody" = Returned None
   /\ connection_getAccountInfo Demo.world "Down" = Thrown "fetch failed"
   /\ result (getAccountInfo Demo.world "Nobody") = Thrown "Failed to fetch account info."
   /\ result (getAccountInfo Demo.world "Nobody") <> Thrown "Account not found"
   /\ result (getAccountInfo Demo.world "Nobody") = result (getAccountInfo Demo.world "Down"))
  /\ (axios_get Demo.world "https://api.coingecko.com/api/v3/coins/markets" "usd"
        "doesnotexist" = Returned []
      /\ axios_get Demo.world "https://api.coingecko.com/api/v3/coins/markets" "usd"
           "offline" = Thrown "Network Error"
      /\ result (getTokenInfo Demo.world "doesnotexist")
         = Thrown "Failed to retrieve token info."
      /\ result (getTokenInfo Demo.world "doesnotexist") <> Thrown "Token not found."
      /\ result (getTokenInfo Demo.world "doesnotexist")
         = result (getTokenInfo Demo.world "offline")).
Proof.
  repeat split; try reflexivity; vm_compute; discriminate.
Qed.

(** C6 (amended): each fetch collapses its own failures. [getAccountInfo]
    fails with 'Failed to fetch account info.' both when the node reports
    no such account and when the node call throws; [getTokenInfo] fails with
    'Failed to retrieve token info.' both when the provider returns zero
    entries and when the request throws. The cause ('Account not found',
    'Token not found.', or the message of the thrown error) appears only in
    the one line the fetch logs. The orchestrator then replaces either
    error by its own generic one. *)
Theorem C6_component_failures_generic_and_logged
    (w : World) (address tokenSymbol : string) :
  (forall key,
      newPublicKey w address = Returned key ->
      connection_getAccountInfo w key = Returned None ->
      getAccountInfo w address =
      (Thrown "Failed to fetch account info.",
       ["Error fetching account info for " ++ address ++ ": Account not found"]))
  /\ (forall key e,
      newPublicKey w address = Returned key ->
      connection_getAccountInfo w key = Thrown e ->
      getAccountInfo w address =
      (Thrown "Failed to fetch account info.",
       ["Error fetching account info for " ++ address ++ ": " ++ e]))
  /\ (axios_get w (config.COINGECKO_API_URL ++ "/coins/markets") "usd"
        (toLowerCase w tokenSymbol) = Returned [] ->
      getTokenInfo w tokenSymbol =
      (Thrown "Failed to retrieve token info.",
       ["Error fetching token info: Token not found."]))
  /\ (forall e,
      axios_get w (config.COINGECKO_API_URL ++ "/coins/markets") "usd"
        (toLowerCase w tokenSymbol) = Thrown e ->
      getTokenInfo w tokenSymbol =
      (Thrown "Failed to retrieve token info.", ["Error fetching token info: " ++ e]))
  /\ (forall order,
      failed (result (getAccountInfo w address))
      || failed (result (getTokenInfo w tokenSymbol)) = true ->
      result (analyzeToken w order address tokenSymbol) = Thrown ANALYSIS_FAILED).
Proof.
  split; [|split; [|split; [|split]]].
  - intros key Hkey Hnode. rewrite getAccountInfo_run, Hkey, Hnode. reflexivity.
  - intros key e Hkey Hnode. rewrite getAccountInfo_run, Hkey, Hnode. reflexivity.
  - intros Hdata. rewrite getTokenInfo_run, Hdata. reflexivity.
  - intros e Hdata. rewrite getTokenInfo_run, Hdata. reflexivity.
  - intros order Hfail. rewrite analyzeToken_result.
    destruct (result (getAccountInfo w address)) as [a|];
      destruct (result (getTokenTransactions w address)) as [txs|];
      destruct (result (getTokenInfo w tokenSymbol)) as [details|];
      try reflexivity.
    simpl in Hfail. discriminate.
Qed.

Lemma C6_component_failures_generic_and_logged_witness :
  getAccountInfo Demo.world "Nobody" =
    (Thrown "Failed to fetch account info.",
     ["Error fetching account info for Nobody: Account not found"])
  /\ getAccountInfo Demo.world "Down" =
    (Thrown "Failed to fetch account info.",
     ["Error fetching account info for Down: fetch failed"])
  /\ getTokenInfo Demo.world "doesnotexist" =
    (Thrown "Failed to retrieve token info.",
     ["Error fetching token info: Token not found."])
  /\ getTokenInfo Demo.world "offline" =
    (Thrown "Failed to retrieve token info.",
     ["Error fetching token info: Network Error"])
  /\ result (analyzeToken Demo.world MAT "Nobody" "doesnotexist") = Thrown ANALYSIS_FAILED.
Proof.
  destruct (C6_component_failures_generic_and_logged Demo.world "Nobody" "doesnotexist")
    as (Hnone & _ & Hzero & _ & Htop).
  destruct (C6_component_failures_generic_and_logged Demo.world "Down" "offline")
    as (_ & Hdown & _ & Hoff & _).
  split; [exact (Hnone "Nobody" eq_refl eq_refl)|].
  split; [exact (Hdown "Down" "fetch failed" eq_refl eq_refl)|].
  split; [exact (Hzero eq_refl)|].
  split; [exact (Hoff "Network Error" eq_refl)|].
  exact (Htop MAT eq_refl).
Defined.

(** C7, as stated, fails: the price and the market cap that [getTokenInfo]
    returns are strings, a dollar sign followed by the formatted number (the
    market cap with its grouping separators), not numbers. *)
Lemma C7_price_and_marketCap_counterexample :
  exists t,
    result (getTokenInfo Demo.world "solana") = Returned t
    /\ price t = JsString "$150"
    /\ marketCap t = JsString "$70,000,000,000"
    /\ typeof (price t) = "string"
    /\ typeof (marketCap t) = "string"
    /\ typeof (price t) <> "number"
    /\ typeof (marketCap t) <> "number".
Proof.
  eexists. split; [reflexivity|]. repeat split; vm_compute; discriminate.
Qed.

(** C7 (amended): on success [getTokenInfo] returns the name and the symbol
    of the first entry of the provider's answer, and a price and a market
    cap that are strings: a dollar sign followed by the text of the entry's
    current price, and a dollar sign followed by the locale text of the
    entry's market cap, which is then a number. *)
Theorem C7_getTokenInfo_formats_strings
    (w : World) (tokenSymbol : string) (t : TokenDetails (number w)) :
  result (getTokenInfo w tokenSymbol) = Returned t ->
  exists token rest cap,
    axios_get w (config.COINGECKO_API_URL ++ "/coins/markets") "usd"
      (toLowerCase w tokenSymbol) = Returned (token :: rest)
    /\ CoinGecko.market_cap token = Number cap
    /\ name t = CoinGecko.name token
    /\ symbol t = CoinGecko.symbol token
    /\ price t = JsString ("$" ++ number_text w (CoinGecko.current_price token))
    /\ marketCap t = JsString ("$" ++ toLocaleString w cap)
    /\ typeof (price t) = "string"
    /\ typeof (marketCap t) = "string".
Proof.
  rewrite getTokenInfo_run. cbv zeta.
  destruct (axios_get w _ _ _) as [[|token rest]|e]; try discriminate.
  destruct (CoinGecko.market_cap token) as [| |cap] eqn:Ecap; try discriminate.
  simpl. intros H. injection H as <-. exists token, rest, cap.
  repeat split; try reflexivity. exact Ecap.
Qed.

Lemma C7_getTokenInfo_formats_strings_witness :
  exists t,
    result (getTokenInfo Demo.world "solana") = Returned t
    /\ name t = "Solana"
    /\ symbol t = "sol"
    /\ price t = JsString "$150"
    /\ marketCap t = JsString "$70,000,000,000".
Proof.
  eexists. split; [reflexivity|].
  destruct (C7_getTokenInfo_formats_strings Demo.world "solana" _ eq_refl)
    as (token & rest & cap & Hdata & Hcap & Hn & Hs & Hp & Hm & _).
  vm_compute in Hdata. injection Hdata as <- <-.
  vm_compute in Hcap. injection Hcap as <-.
  split; [exact Hn|]. split; [exact Hs|]. split; [exact Hp|exact Hm].
Defined.

(** C10: every record that [getTokenTransactions] returns has type
    'confirmed' or 'failed' and never 'receive'; so [checkHoneypotLogic]
    returns [false] on every non-empty fetched sequence when the account is
    present, and the verdict of a report is the high-risk text exactly when
    the fetched history is empty. *)
Theorem C10_verdict_depends_on_emptiness_only (w : World) (address : string) :
  (forall fetched,
      result (getTokenTransactions w address) = Returned fetched ->
      Forall (fun tx => (type tx = "confirmed" \/ type tx = "failed")
                        /\ type tx <> "receive") fetched
      /\ (forall a, fetched <> [] -> checkHoneypotLogic (Some a) fetched = false))
  /\ (forall order tokenSymbol r,
      result (analyzeToken w order address tokenSymbol) = Returned r ->
      exists fetched,
        result (getTokenTransactions w address) = Returned fetched
        /\ (honeypot r = "⚠️ High Risk" <-> fetched = [])
        /\ (honeypot r = "✅ No Honeypot Detected" <-> fetched <> [])).
Proof.
  split.
  - intros fetched Hf. split.
    + pose proof (fetched_types w address fetched Hf) as Hty.
      eapply Forall_impl; [|exact Hty]. simpl. intros tx Htx. split; [exact Htx|].
      destruct Htx as [E|E]; rewrite E; discriminate.
    + intros a Hne. rewrite (checkHoneypotLogic_present a fetched Hne).
      exact (fetched_never_receive w address fetched Hf Hne).
  - intros order tokenSymbol r H.
    destruct (analyzeToken_Returned w order address tokenSymbol r H)
      as (a & txs & details & _ & Htx & _ & ->).
    exists txs. split; [exact Htx|]. unfold report. cbn [honeypot].
    destruct txs as [|tx rest].
    + simpl. split; split; intros; try reflexivity; congruence.
    + assert (Hne : tx :: rest <> []) by discriminate.
      rewrite (checkHoneypotLogic_present a _ Hne).
      rewrite (fetched_never_receive w address _ Htx Hne).
      split; split; intros E; try reflexivity; try exact Hne; discriminate E.
Qed.

Lemma C10_verdict_depends_on_emptiness_only_witness :
  (exists r, result (analyzeToken Demo.world ATM "Busy" "solana") = Returned r
             /\ honeypot r = "✅ No Honeypot Detected")
  /\ (exists r, result (analyzeToken Demo.world ATM "Fresh" "solana") = Returned r
              /\ honeypot r = "⚠️ High Risk").
Proof.
  split.
  - eexists. split; [reflexivity|].
    destruct (C10_verdict_depends_on_emptiness_only Demo.world "Busy") as [_ Hreport].
    destruct (Hreport ATM "solana" _ eq_refl) as (fetched & Hf & _ & Hnone).
    apply Hnone. vm_compute in Hf. injection Hf as <-. discriminate.
  - eexists. split; [reflexivity|].
    destruct (C10_verdict_depends_on_emptiness_only Demo.world "Fresh") as [_ Hreport].
    destruct (Hreport ATM "solana" _ eq_refl) as (fetched & Hf & Hhigh & _).
    apply Hhigh. vm_compute in Hf. injection Hf as <-. reflexivity.
Defined.

(** * Further properties *)

(** ** Splitting and joining *)

Lemma js_split_length (c : ascii) (s : string) :
  length (js_split c s) = S (occurrences c s).
Proof.
  induction s as [|d rest IH]; simpl; [reflexivity|].
  destruct (Ascii.eqb d c); simpl; [rewrite IH; reflexivity|].
  destruct (js_split c rest) as [|piece pieces]; simpl in *; [discriminate IH|exact IH].
Qed.

Lemma occurrences_app (c : ascii) (s1 s2 : string) :
  occurrences c (s1 ++ s2) = (occurrences c s1 + occurrences c s2)%nat.
Proof.
  induction s1 as [|d rest IH]; simpl; [reflexivity|].
  rewrite IH. apply Nat.add_assoc.
Qed.

Lemma occurrences_cons_0 (c d : ascii) (s : string) :
  occurrences c (String d s) = 0%nat -> Ascii.eqb d c = false /\ occurrences c s = 0%nat.
Proof.
  simpl. destruct (Ascii.eqb d c); simpl; [discriminate|auto].
Qed.

(** A piece without the separator, followed by the separator, is the first
    piece of the split. *)
Lemma js_split_append (c : ascii) (piece rest : string) :
  occurrences c piece = 0%nat ->
  js_split c (piece ++ String c rest) = piece :: js_split c rest.
Proof.
  induction piece as [|d p IH]; intros H.
  - simpl. rewrite Ascii.eqb_refl. reflexivity.
  - apply occurrences_cons_0 in H. destruct H as [Hd Hp].
    simpl. rewrite Hd, (IH Hp). reflexivity.
Qed.

Lemma js_split_plain (c : ascii) (piece : string) :
  occurrences c piece = 0%nat -> js_split c piece = [piece].
Proof.
  induction piece as [|d p IH]; intros H; [reflexivity|].
  apply occurrences_cons_0 in H. destruct H as [Hd Hp].
  simpl. rewrite Hd, (IH Hp). reflexivity.
Qed.

Lemma join_cons (sep x y : string) (rest : list string) :
  join sep (x :: y :: rest) = x ++ sep ++ join sep (y :: rest).
Proof. reflexivity. Qed.

(** Splitting what [join] glued gives the pieces back, when no piece holds
    the separator. *)
Lemma js_split_join (c : ascii) (pieces : list string) :
  pieces <> [] ->
  Forall (fun piece => occurrences c piece = 0%nat) pieces ->
  js_split c (join (String c EmptyString) pieces) = pieces.
Proof.
  induction pieces as [|x rest IH]; intros Hne Hall; [congruence|].
  inversion Hall as [|? ? Hx Hrest]; subst.
  destruct rest as [|y rest].
  - simpl. apply js_split_plain, Hx.
  - rewrite join_cons.
    change (String c EmptyString ++ join (String c EmptyString) (y :: rest))
      with (String c (join (String c EmptyString) (y :: rest))).
    rewrite (js_split_append c x _ Hx), IH; [reflexivity|discriminate|exact Hrest].
Qed.

(** Gluing the pieces of a split with the separator gives the text back. *)
Lemma join_js_split (c : ascii) (s : string) :
  join (String c EmptyString) (js_split c s) = s.
Proof.
  induction s as [|d rest IH]; [reflexivity|].
  simpl js_split. destruct (Ascii.eqb_spec d c) as [->|Hd].
  - pose proof (js_split_length c rest) as Hlen.
    destruct (js_split c rest) as [|piece pieces]; [discriminate Hlen|].
    rewrite join_cons, IH. reflexivity.
  - pose proof (js_split_length c rest) as Hlen.
    destruct (js_split c rest) as [|piece pieces]; [discriminate Hlen|].
    destruct pieces as [|q pieces].
    + rewrite <- IH. reflexivity.
    + rewrite join_cons in *. rewrite <- IH. reflexivity.
Qed.

(** ** Lines of [formatTransactions] *)

Lemma length_map_index {A B} (f : A -> nat -> B) (l : list A) (k : nat) :
  length (map_index f l k) = length l.
Proof.
  revert k. induction l as [|x rest IH]; intros k; simpl; [reflexivity|].
  rewrite IH. reflexivity.
Qed.

Lemma nth_error_map_index {A B} (f : A -> nat -> B) (l : list A) (k i : nat) (x : A) :
  nth_error l i = Some x -> nth_error (map_index f l k) i = Some (f x (k + i)%nat).
Proof.
  revert k i. induction l as [|y rest IH]; intros k i H.
  - destruct i; discriminate H.
  - destruct i as [|i]; simpl in *.
    + injection H as ->. rewrite Nat.add_0_r. reflexivity.
    + rewrite (IH (S k) i H). rewrite Nat.add_succ_r. reflexivity.
Qed.

Lemma digits_without_LF (d : Decimal.uint) :
  occurrences LF_char (NilEmpty.string_of_uint d) = 0%nat.
Proof.
  induction d; [reflexivity | exact IHd ..].
Qed.

Lemma index_text_without_LF (n : nat) : occurrences LF_char (index_text n) = 0%nat.
Proof.
  unfold index_text, NilZero.string_of_uint.
  destruct (Nat.to_uint n) eqn:E; try reflexivity;
    rewrite <- E; apply digits_without_LF.
Qed.

Lemma transaction_line_without_LF (tx : Transaction) (index : nat) :
  occurrences LF_char (txId tx) = 0%nat ->
  occurrences LF_char (transaction_line tx index) = 0%nat.
Proof.
  intros H. unfold transaction_line.
  rewrite !occurrences_app, index_text_without_LF, H. reflexivity.
Qed.

Lemma lines_without_LF (txs : list Transaction) (k : nat) :
  Forall (fun tx => occurrences LF_char (txId tx) = 0%nat) txs ->
  Forall (fun line => occurrences LF_char line = 0%nat) (map_index transaction_line txs k).
Proof.
  revert k. induction txs as [|tx rest IH]; intros k H; simpl; constructor.
  - apply transaction_line_without_LF. exact (Forall_inv H).
  - apply IH. exact (Forall_inv_tail H).
Qed.

Lemma lines_depend_on_txId (txs1 txs2 : list Transaction) (k : nat) :
  map txId txs1 = map txId txs2 ->
  map_index transaction_line txs1 k = map_index transaction_line txs2 k.
Proof.
  revert txs2 k. induction txs1 as [|a rest IH]; intros [|b rest2] k H;
    simpl in *; try discriminate; [reflexivity|].
  injection H as Hid Hrest. unfold transaction_line at 1 3.
  rewrite Hid, (IH rest2 (S k) Hrest). reflexivity.
Qed.

(** ** The verdict *)

(** X1: [checkHoneypotLogic] reports high risk exactly when the account is
    absent or every transaction has type 'receive'; the test on the empty
    sequence adds nothing to these two. *)
Theorem X1_checkHoneypotLogic_iff
    (accountInfo : option AccountInfo) (txs : list Transaction) :
  checkHoneypotLogic accountInfo txs = true
  <-> accountInfo = None \/ (forall tx, In tx txs -> type tx = "receive").
Proof.
  destruct accountInfo as [a|].
  - destruct txs as [|tx rest].
    + split; [intros _; right; intros tx []|reflexivity].
    + rewrite checkHoneypotLogic_present by discriminate.
      rewrite every_receive_iff. split; [auto|]. intros [H|H]; [discriminate H|exact H].
  - split; [auto|reflexivity].
Qed.

(** ** The transaction list of the reply *)

Lemma formatTransactions_empty_iff (txs : list Transaction) :
  formatTransactions (Some txs) = "No recent transactions." <-> txs = [].
Proof.
  split; [|intros ->; reflexivity].
  destruct txs as [|tx rest]; [reflexivity|].
  assert (E : transaction_line tx 0 = String "1" (". TxID: " ++ txId tx))
    by reflexivity.
  unfold formatTransactions, join. cbn [length Nat.eqb map_index String.concat].
  rewrite E.
  destruct (map_index transaction_line rest 1); cbn [String.append];
    intros H; discriminate H.
Qed.

(** X2: [formatTransactions] writes 'No recent transactions.' exactly for a
    missing array and for an empty one; any transaction, whatever its
    identifier, gives another text. *)
Theorem X2_formatTransactions_placeholder (transactions : option (list Transaction)) :
  formatTransactions transactions = "No recent transactions."
  <-> transactions = None \/ transactions = Some [].
Proof.
  destruct transactions as [txs|].
  - rewrite formatTransactions_empty_iff. split.
    + intros ->. auto.
    + intros [H|H]; [discriminate H | injection H as ->; reflexivity].
  - split; [auto | reflexivity].
Qed.

Lemma formatTransactions_split (txs : list Transaction) :
  txs <> [] ->
  Forall (fun tx => occurrences LF_char (txId tx) = 0%nat) txs ->
  js_split LF_char (formatTransactions (Some txs)) = map_index transaction_line txs 0.
Proof.
  intros Hne Hids. unfold formatTransactions.
  rewrite (nonempty_length txs Hne). unfold LF.
  apply js_split_join.
  - destruct txs; [congruence | discriminate].
  - apply lines_without_LF, Hids.
Qed.

(** X3: for a sequence that is not empty and whose identifiers hold no line
    feed, the text of [formatTransactions] splits at the line feeds into one
    line per transaction, in the order of the sequence, and the line of the
    transaction at position [i] is the number [i + 1], '. TxID: ' and its
    identifier. *)
Theorem X3_formatTransactions_lines (txs : list Transaction) :
  txs <> [] ->
  Forall (fun tx => occurrences LF_char (txId tx) = 0%nat) txs ->
  let lines := js_split LF_char (formatTransactions (Some txs)) in
  length lines = length txs
  /\ forall i tx,
       nth_error txs i = Some tx ->
       nth_error lines i = Some (index_text (i + 1) ++ ". TxID: " ++ txId tx).
Proof.
  intros Hne Hids lines.
  assert (E : lines = map_index transaction_line txs 0)
    by (apply formatTransactions_split; assumption).
  rewrite E. split; [apply length_map_index|].
  intros i tx Hi. rewrite (nth_error_map_index _ _ 0 i tx Hi). reflexivity.
Qed.

Lemma X3_formatTransactions_lines_witness :
  js_split LF_char
    (formatTransactions
       (Some [ {| txId := "5VfYd"; type := "confirmed" |};
               {| txId := "3nKqT"; type := "failed" |} ]))
  = ["1. TxID: 5VfYd"; "2. TxID: 3nKqT"].
Proof.
  pose proof (X3_formatTransactions_lines
                [ {| txId := "5VfYd"; type := "confirmed" |};
                  {| txId := "3nKqT"; type := "failed" |} ]) as H.
  destruct H as [Hlen Hnth].
  - discriminate.
  - repeat constructor.
  - pose proof (Hnth 0%nat _ eq_refl) as H0. pose proof (Hnth 1%nat _ eq_refl) as H1.
    destruct (js_split LF_char _) as [|l0 [|l1 [|l2 rest]]]; try discriminate Hlen.
    simpl in H0, H1. injection H0 as ->. injection H1 as ->. reflexivity.
Defined.

(** X4: the text of [formatTransactions] depends on the identifiers only:
    whether a transaction failed is never shown. *)
Theorem X4_formatTransactions_ignores_type (txs1 txs2 : list Transaction) :
  map txId txs1 = map txId txs2 ->
  formatTransactions (Some txs1) = formatTransactions (Some txs2).
Proof.
  intros H. unfold formatTransactions.
  rewrite (lines_depend_on_txId txs1 txs2 0 H).
  replace (length txs2) with (length txs1); [reflexivity|].
  rewrite <- (length_map txId txs1), <- (length_map txId txs2), H. reflexivity.
Qed.

Lemma X4_formatTransactions_ignores_type_witness :
  formatTransactions (Some [ {| txId := "5VfYd"; type := "confirmed" |} ])
  = formatTransactions (Some [ {| txId := "5VfYd"; type := "failed" |} ]).
Proof.
  apply (X4_formatTransactions_ignores_type
           [ {| txId := "5VfYd"; type := "confirmed" |} ]
           [ {| txId := "5VfYd"; type := "failed" |} ]).
  reflexivity.
Defined.

(** ** The pipeline, end to end *)

Lemma tx_type_not_receive (s : Solana.SignatureInfo) :
  String.eqb (tx_type s) "receive" = false.
Proof. unfold tx_type. destruct (Solana.err s); reflexivity. Qed.

(** On what the node hands back, the verdict only looks at emptiness. *)
Lemma checkHoneypotLogic_fetched (a : AccountInfo) (sigs : list Solana.SignatureInfo) :
  checkHoneypotLogic (Some a)
    (map (fun tx => {| txId := Solana.signature tx; type := tx_type tx |}) sigs)
  = (length sigs =? 0)%nat.
Proof.
  destruct sigs as [|s rest]; [reflexivity|].
  unfold checkHoneypotLogic, every, is_receive. cbn [map length Nat.eqb orb forallb type].
  rewrite tx_type_not_receive. reflexivity.
Qed.

Lemma getAccountInfo_logged_length (w : World) (address : string) :
  length (logged (getAccountInfo w address))
  = if failed (result (getAccountInfo w address)) then 1%nat else 0%nat.
Proof.
  rewrite getAccountInfo_run. cbv zeta. unfold rethrown.
  destruct (newPublicKey w address) as [key|e]; [|reflexivity].
  destruct (connection_getAccountInfo w key) as [[a|]|e]; reflexivity.
Qed.

Lemma getTokenTransactions_logged_length (w : World) (address : string) :
  length (logged (getTokenTransactions w address))
  = if failed (result (getTokenTransactions w address)) then 1%nat else 0%nat.
Proof.
  rewrite getTokenTransactions_run. cbv zeta. unfold rethrown.
  destruct (newPublicKey w address) as [key|e]; [|reflexivity].
  destruct (connection_getConfirmedSignaturesForAddress2 w key 10) as [sigs|e];
    reflexivity.
Qed.

Lemma getTokenInfo_logged_length (w : World) (tokenSymbol : string) :
  length (logged (getTokenInfo w tokenSymbol))
  = if failed (result (getTokenInfo w tokenSymbol)) then 1%nat else 0%nat.
Proof.
  rewrite getTokenInfo_run. cbv zeta. unfold rethrown.
  destruct (axios_get w _ _ _) as [[|token rest]|e]; try reflexivity.
  destruct (CoinGecko.market_cap token); reflexivity.
Qed.

Lemma analyzeToken_logged_length
    (w : World) (order : settle_order) (address tokenSymbol : string) :
  length (logged (analyzeToken w order address tokenSymbol))
  = match failures w address tokenSymbol with
    | O => 0%nat
    | S n => S (S n)
    end.
Proof.
  rewrite analyzeToken_unfold. cbn [logged snd]. rewrite length_app.
  destruct (failures w address tokenSymbol) as [|n] eqn:E.
  - destruct (analyzeToken_promise_success w order address tokenSymbol E) as [-> ->].
    reflexivity.
  - destruct (analyzeToken_promise_failure w order address tokenSymbol)
      as (f & _ & Hfst & Hlen); [congruence|].
    rewrite Hfst, E in *. cbn [logged snd]. rewrite length_app. cbn. lia.
Qed.

Lemma failures_0 (w : World) (address tokenSymbol : string) :
  failures w address tokenSymbol = 0%nat
  <-> exists a txs details,
       result (getAccountInfo w address) = Returned a
       /\ result (getTokenTransactions w address) = Returned txs
       /\ result (getTokenInfo w tokenSymbol) = Returned details.
Proof.
  unfold failures.
  destruct (result (getAccountInfo w address)) as [a|];
    destruct (result (getTokenTransactions w address)) as [txs|];
    destruct (result (getTokenInfo w tokenSymbol)) as [details|]; cbn;
    (split; [intros H; try discriminate H; do 3 eexists; repeat split; reflexivity
            | intros (a' & t' & d' & Ea & Et & Ed); try reflexivity; discriminate]).
Qed.

(** X5: in a report, the transaction list reads 'No recent transactions.'
    exactly when the verdict is the high-risk one. *)
Theorem X5_report_placeholder_iff_high_risk
    (w : World) (order : settle_order) (address tokenSymbol : string)
    (r : Analysis (number w)) :
  result (analyzeToken w order address tokenSymbol) = Returned r ->
  (formatTransactions (Some (transactions r)) = "No recent transactions."
   <-> honeypot r = "⚠️ High Risk").
Proof.
  intros H. destruct (analyzeToken_Returned w order address tokenSymbol r H)
    as (a & txs & details & _ & Htx & _ & ->).
  rewrite formatTransactions_empty_iff. unfold report, slice0. cbn [transactions honeypot].
  destruct txs as [|tx rest].
  - split; reflexivity.
  - assert (Hne : tx :: rest <> []) by discriminate.
    rewrite (checkHoneypotLogic_present a _ Hne).
    rewrite (fetched_never_receive w address _ Htx Hne).
    split; intros E; discriminate E.
Qed.

Lemma X5_report_placeholder_iff_high_risk_witness :
  exists r,
    result (analyzeToken Demo.world ATM "Fresh" "solana") = Returned r
    /\ formatTransactions (Some (transactions r)) = "No recent transactions."
    /\ honeypot r = "⚠️ High Risk".
Proof.
  eexists. split; [reflexivity|].
  pose proof (X5_report_placeholder_iff_high_risk Demo.world ATM "Fresh" "solana" _ eq_refl)
    as [Hto _].
  split; [reflexivity|]. apply Hto. reflexivity.
Defined.

(** X6: what an analysis returns does not depend on the order in which the
    three fetches settle, and neither does the number of lines it logs; the
    order only picks the cause named in the line of the orchestrator. *)
Theorem X6_analyzeToken_order_independent
    (w : World) (o1 o2 : settle_order) (address tokenSymbol : string) :
  result (analyzeToken w o1 address tokenSymbol)
  = result (analyzeToken w o2 address tokenSymbol)
  /\ length (logged (analyzeToken w o1 address tokenSymbol))
     = length (logged (analyzeToken w o2 address tokenSymbol)).
Proof.
  split.
  - rewrite !analyzeToken_result. reflexivity.
  - rewrite !analyzeToken_logged_length. reflexivity.
Qed.

(** X7: an analysis in which every fetch succeeds logs no error line; one
    in which [n] fetches fail, [n] being 1, 2 or 3, logs [n + 1] error
    lines: one per failed fetch and one of the orchestrator. *)
Theorem X7_analyzeToken_error_lines
    (w : World) (order : settle_order) (address tokenSymbol : string) :
  let n := failures w address tokenSymbol in
  (n <= 3)%nat
  /\ (n = 0%nat <-> exists r, result (analyzeToken w order address tokenSymbol) = Returned r)
  /\ length (logged (analyzeToken w order address tokenSymbol))
     = (if (n =? 0)%nat then 0 else n + 1)%nat.
Proof.
  intros n. split; [|split].
  - unfold n, failures.
    destruct (failed _), (failed _), (failed _); cbn; lia.
  - unfold n. rewrite failures_0, analyzeToken_result. split.
    + intros (a & txs & details & -> & -> & ->). eauto.
    + intros [r Hr].
      destruct (result (getAccountInfo w address)) as [a|];
        destruct (result (getTokenTransactions w address)) as [txs|];
        destruct (result (getTokenInfo w tokenSymbol)) as [details|];
        try discriminate Hr.
      do 3 eexists; repeat split; reflexivity.
  - rewrite analyzeToken_logged_length. fold n. destruct n; cbn; [reflexivity|].
    f_equal. lia.
Qed.

(** X8: an analysis returns a report exactly when the address is well
    formed, the node knows the account, the node answers the request for the
    signatures, the provider lists at least one entry and the market cap of
    the first entry is a number; the report is then built from the account,
    from the first entry and from the first five signatures, with the
    high-risk verdict exactly when the node returned no signature. *)
Theorem X8_analyzeToken_success_iff
    (w : World) (order : settle_order) (address tokenSymbol : string)
    (r : Analysis (number w)) :
  result (analyzeToken w order address tokenSymbol) = Returned r
  <-> exists key account sigs token rest cap,
       newPublicKey w address = Returned key
       /\ connection_getAccountInfo w key = Returned (Some account)
       /\ connection_getConfirmedSignaturesForAddress2 w key 10 = Returned sigs
       /\ axios_get w (config.COINGECKO_API_URL ++ "/coins/markets") "usd"
            (toLowerCase w tokenSymbol) = Returned (token :: rest)
       /\ CoinGecko.market_cap token = Number cap
       /\ r = {| honeypot := if (length sigs =? 0)%nat
                             then "⚠️ High Risk" else "✅ No Honeypot Detected";
                 ownership :=
                   if String.eqb (toBase58 w (Solana.owner account)) SYSTEM_PROGRAM
                   then "🚨 Centralized Ownership"
                   else "✅ Owner: " ++ toBase58 w (Solana.owner account);
                 tokenDetails :=
                   {| name := CoinGecko.name token;
                      symbol := CoinGecko.symbol token;
                      price := JsString ("$" ++ number_text w
                                                  (CoinGecko.current_price token));
                      marketCap := JsString ("$" ++ toLocaleString w cap) |};
                 transactions :=
                   firstn 5 (map (fun tx => {| txId := Solana.signature tx;
                                               type := tx_type tx |}) sigs) |}.
Proof.
  rewrite analyzeToken_result, getAccountInfo_run, getTokenTransactions_run,
    getTokenInfo_run.
  cbv zeta. unfold rethrown.
  destruct (newPublicKey w address) as [key|e1] eqn:Ekey.
  2:{ split; [intros H; discriminate H|].
      intros (k & ac & sg & tk & rs & cp & H & _). discriminate H. }
  destruct (connection_getAccountInfo w key) as [[account|]|e2] eqn:Eacc;
    destruct (connection_getConfirmedSignaturesForAddress2 w key 10) as [sigs|e3] eqn:Esig;
    (destruct (axios_get w _ _ _) as [[|token rest]|e4] eqn:Emk;
     [ | destruct (CoinGecko.market_cap token) as [| |cap] eqn:Ecap | ]);
    cbn [result fst];
    (split;
     [ intros H; try discriminate H
     | intros (k & ac & sg & tk & rs & cp & Hk & Ha & Hs & Hm & Hc & Hr);
       injection Hk as <-; rewrite Eacc in Ha; rewrite Esig in Hs;
       try discriminate Ha; try discriminate Hs; try discriminate Hm;
       injection Hm as <- <-; rewrite Ecap in Hc; try discriminate Hc;
       injection Hc as <-; injection Ha as <-; injection Hs as <-; subst r;
       unfold report; rewrite checkHoneypotLogic_fetched; reflexivity ]).
  injection H as <-. exists key, account, sigs, token, rest, cap.
  repeat split; try reflexivity; try assumption.
  unfold report. rewrite checkHoneypotLogic_fetched. reflexivity.
Qed.

Lemma X8_analyzeToken_success_iff_witness :
  (exists r, result (analyzeToken Demo.world ATM "Busy" "solana") = Returned r)
  /\ (forall r, result (analyzeToken Demo.world ATM "Busy" "unlisted") <> Returned r).
Proof.
  split.
  - eexists.
    apply (proj2 (X8_analyzeToken_success_iff Demo.world ATM "Busy" "solana" _)).
    do 6 eexists. repeat split; reflexivity.
  - intros r Hr.
    apply (proj1 (X8_analyzeToken_success_iff Demo.world ATM "Busy" "unlisted" r)) in Hr.
    destruct Hr as (key & account & sigs & token & rest & cap & _ & _ & _ & Hm & Hc & _).
    vm_compute in Hm. injection Hm as <- <-. discriminate Hc.
Defined.

(** X9: the ownership line of a report is never the 'unknown' one; it is
    the 'centralized' one exactly when the owner of the fetched account is
    the system identity, and otherwise it carries the owner. *)
Theorem X9_report_ownership
    (w : World) (order : settle_order) (address tokenSymbol : string)
    (r : Analysis (number w)) :
  result (analyzeToken w order address tokenSymbol) = Returned r ->
  ownership r <> "❓ Unknown"
  /\ exists a,
       result (getAccountInfo w address) = Returned a
       /\ (ownership r = "🚨 Centralized Ownership" <-> owner a = SYSTEM_PROGRAM)
       /\ (ownership r = "✅ Owner: " ++ owner a <-> owner a <> SYSTEM_PROGRAM).
Proof.
  intros H. destruct (analyzeToken_Returned w order address tokenSymbol r H)
    as (a & txs & details & Ha & _ & _ & ->).
  unfold report. cbn [ownership]. unfold checkOwnership.
  destruct (String.eqb_spec (owner a) SYSTEM_PROGRAM) as [E|E].
  - split; [discriminate|]. exists a. split; [exact Ha|]. split.
    + split; auto.
    + split; [intros H1; discriminate H1 | intros H1; contradiction].
  - split; [cbn; discriminate|]. exists a. split; [exact Ha|]. split.
    + split; [cbn; intros H1; discriminate H1 | intros H1; contradiction].
    + split; auto.
Qed.

Lemma X9_report_ownership_witness :
  exists r,
    result (analyzeToken Demo.world ATM "Fresh" "solana") = Returned r
    /\ ownership r = "🚨 Centralized Ownership".
Proof.
  eexists. split; [reflexivity|].
  destruct (X9_report_ownership Demo.world ATM "Fresh" "solana" _ eq_refl)
    as (_ & a & Ha & Hcentral & _).
  apply Hcentral. vm_compute in Ha. injection Ha as <-. reflexivity.
Defined.

(** X10: [getTokenInfo] sees the symbol only through its lower case: two
    symbols with the same lower case give the same result and the same log
    line. *)
Theorem X10_getTokenInfo_case_insensitive (w : World) (symbol1 symbol2 : string) :
  toLowerCase w symbol1 = toLowerCase w symbol2 ->
  getTokenInfo w symbol1 = getTokenInfo w symbol2.
Proof.
  intros H. rewrite !getTokenInfo_run, H. reflexivity.
Qed.

Lemma X10_getTokenInfo_case_insensitive_witness :
  getTokenInfo Demo.world "SoLaNa" = getTokenInfo Demo.world "solana".
Proof.
  apply (X10_getTokenInfo_case_insensitive Demo.world "SoLaNa" "solana").
  reflexivity.
Defined.

(** X11: an address that is not well formed fails both chain fetches before
    the node is asked: each logs one line with the address and the cause,
    and the analysis fails whatever the provider answers. *)
Theorem X11_malformed_address
    (w : World) (order : settle_order) (address tokenSymbol cause : string) :
  newPublicKey w address = Thrown cause ->
  getAccountInfo w address =
    (Thrown "Failed to fetch account info.",
     ["Error fetching account info for " ++ address ++ ": " ++ cause])
  /\ getTokenTransactions w address =
    (Thrown "Failed to fetch transactions.",
     ["Error fetching transactions for " ++ address ++ ": " ++ cause])
  /\ result (analyzeToken w order address tokenSymbol) = Thrown ANALYSIS_FAILED
  /\ (2 <= failures w address tokenSymbol)%nat.
Proof.
  intros H.
  assert (Ea : getAccountInfo w address =
               (Thrown "Failed to fetch account info.",
                ["Error fetching account info for " ++ address ++ ": " ++ cause]))
    by (rewrite getAccountInfo_run, H; reflexivity).
  assert (Et : getTokenTransactions w address =
               (Thrown "Failed to fetch transactions.",
                ["Error fetching transactions for " ++ address ++ ": " ++ cause]))
    by (rewrite getTokenTransactions_run, H; reflexivity).
  split; [exact Ea|]. split; [exact Et|]. split.
  - rewrite analyzeToken_result, Ea. reflexivity.
  - unfold failures. rewrite Ea, Et. cbn. lia.
Qed.

Lemma X11_malformed_address_witness :
  getAccountInfo Demo.world "" =
    (Thrown "Failed to fetch account info.",
     ["Error fetching account info for : Invalid public key input"])
  /\ getTokenTransactions Demo.world "" =
    (Thrown "Failed to fetch transactions.",
     ["Error fetching transactions for : Invalid public key input"])
  /\ result (analyzeToken Demo.world MTA "" "solana") = Thrown ANALYSIS_FAILED
  /\ (2 <= failures Demo.world "" "solana")%nat.
Proof.
  apply (X11_malformed_address Demo.world MTA "" "solana" "Invalid public key input").
  reflexivity.
Defined.

(** ** The handler of [/check] *)

Lemma args_length (text : string) :
  length (skipn 1 (js_split " " text)) = occurrences " " text.
Proof. rewrite length_skipn, js_split_length. lia. Qed.

Lemma check_command_args (w : World) (order : settle_order) (text : string)
    (address symbol : string) (more : list string) :
  skipn 1 (js_split " " text) = address :: symbol :: more ->
  check_command w order text = check_analysis w order address symbol.
Proof. unfold check_command. intros ->. reflexivity. Qed.

Lemma analyzeToken_Thrown (w : World) (order : settle_order)
    (address tokenSymbol message : string) :
  result (analyzeToken w order address tokenSymbol) = Thrown message ->
  message = ANALYSIS_FAILED /\ failures w address tokenSymbol <> 0%nat.
Proof.
  intros H. split.
  - rewrite analyzeToken_result in H.
    destruct (result (getAccountInfo w address));
      destruct (result (getTokenTransactions w address));
      destruct (result (getTokenInfo w tokenSymbol)); congruence.
  - intros E. apply failures_0 in E. destruct E as (a & txs & details & Ea & Et & Ed).
    rewrite analyzeToken_result, Ea, Et, Ed in H. discriminate H.
Qed.

Lemma analyzeToken_Returned_silent (w : World) (order : settle_order)
    (address tokenSymbol : string) (r : Analysis (number w)) :
  result (analyzeToken w order address tokenSymbol) = Returned r ->
  logged (analyzeToken w order address tokenSymbol) = [].
Proof.
  intros H. apply length_zero_iff_nil. rewrite analyzeToken_logged_length.
  destruct (analyzeToken_Returned w order address tokenSymbol r H)
    as (a & txs & details & Ea & Et & Ed & _).
  replace (failures w address tokenSymbol) with 0%nat; [reflexivity|].
  symmetry. apply failures_0. eauto 10.
Qed.

Lemma check_analysis_run (w : World) (order : settle_order) (address symbol : string) :
  check_analysis w order address symbol
  = match result (analyzeToken w order address symbol) with
    | Returned analysis =>
        {| replies := [ANALYZING; analysis_reply w analysis];
           infos := ["Analysis completed for token: " ++ symbol
                     ++ ", address: " ++ address];
           errors := logged (analyzeToken w order address symbol) |}
    | Thrown message =>
        {| replies := [ANALYZING; "❌ Error: " ++ message];
           infos := [];
           errors := (logged (fst (analyzeToken_promise w order address symbol))
                      ++ [("Error during analysis for token: " ++ symbol
                           ++ ", address: " ++ address)%string]
                      ++ snd (analyzeToken_promise w order address symbol))%list |}
    end.
Proof.
  unfold check_analysis, limiter_schedule. rewrite analyzeToken_unfold.
  destruct (analyzeToken_promise w order address symbol) as [task afterwards].
  reflexivity.
Qed.

(** X12: the handler answers with the usage text, and does nothing else,
    exactly when the text of the message holds fewer than two spaces: it
    counts the separators, not the arguments that are not empty. *)
Theorem X12_check_command_usage (w : World) (order : settle_order) (text : string) :
  check_command w order text = {| replies := [USAGE]; infos := []; errors := [] |}
  <-> (occurrences " " text < 2)%nat.
Proof.
  unfold check_command. rewrite args_length.
  destruct (Nat.ltb_spec (occurrences " " text) 2) as [Hlt|Hge].
  - split; [intros _; exact Hlt | reflexivity].
  - split; [|lia]. intros H. apply (f_equal replies) in H.
    unfold check_analysis, limiter_schedule in H.
    destruct (analyzeToken_promise w order _ _) as [task afterwards].
    destruct (result task); cbn in H; discriminate H.
Qed.



(** X14: only the first two arguments count. When the command word, the
    address and the symbol hold no space, the handler analyses that address
    and that symbol, whatever the command word is and whatever follows the
    symbol after a further space. *)
Theorem X14_check_command_extra_arguments
    (w : World) (order : settle_order) (command address symbol extra : string) :
  occurrences " " command = 0%nat ->
  occurrences " " address = 0%nat ->
  occurrences " " symbol = 0%nat ->
  check_command w order (command ++ " " ++ address ++ " " ++ symbol)
  = check_analysis w order address symbol
  /\ check_command w order (command ++ " " ++ address ++ " " ++ symbol ++ " " ++ extra)
     = check_analysis w order address symbol.
Proof.
  intros Hc Ha Hs. split.
  - apply (check_command_args w order _ address symbol []).
    cbn [String.append].
    rewrite (js_split_append " " command _ Hc), (js_split_append " " address _ Ha),
      (js_split_plain " " symbol Hs).
    reflexivity.
  - apply (check_command_args w order _ address symbol (js_split " " extra)).
    cbn [String.append].
    rewrite (js_split_append " " command _ Hc), (js_split_append " " address _ Ha),
      (js_split_append " " symbol _ Hs).
    reflexivity.
Qed.

Lemma X14_check_command_extra_arguments_witness :
  check_command Demo.world ATM "/check Busy solana"
  = check_analysis Demo.world ATM "Busy" "solana"
  /\ check_command Demo.world ATM "/check Busy solana and more words"
     = check_analysis Demo.world ATM "Busy" "solana".
Proof.
  apply (X14_check_command_extra_arguments Demo.world ATM
           "/check" "Busy" "solana" "and more words"); reflexivity.
Defined.

(** ** The reply and the log of an analysis *)

(** X15: in a report whose identifiers hold no line feed, the transaction
    list of the reply has between one and five lines: one line per
    transaction of the report, or the single placeholder line. *)
Theorem X15_reply_transaction_lines
    (w : World) (order : settle_order) (address tokenSymbol : string)
    (r : Analysis (number w)) :
  result (analyzeToken w order address tokenSymbol) = Returned r ->
  Forall (fun tx => occurrences LF_char (txId tx) = 0%nat) (transactions r) ->
  let lines := js_split LF_char (formatTransactions (Some (transactions r))) in
  (1 <= length lines <= 5)%nat
  /\ (transactions r <> [] -> length lines = length (transactions r))
  /\ (transactions r = [] -> lines = ["No recent transactions."]).
Proof.
  intros H Hids lines.
  assert (Hlen : (length (transactions r) <= 5)%nat).
  { destruct (analyzeToken_Returned w order address tokenSymbol r H)
      as (a & txs & details & _ & _ & _ & ->).
    unfold report, slice0. cbn [transactions]. rewrite length_firstn. lia. }
  unfold lines. clear lines. destruct (transactions r) as [|tx rest] eqn:E.
  - split; [cbn; lia|]. split; [congruence | reflexivity].
  - assert (Hne : tx :: rest <> []) by discriminate.
    rewrite (formatTransactions_split _ Hne Hids), length_map_index.
    split; [cbn in *; lia|]. split; [reflexivity | congruence].
Qed.

Lemma X15_reply_transaction_lines_witness :
  exists r,
    result (analyzeToken Demo.world ATM "Busy" "solana") = Returned r
    /\ length (js_split LF_char (formatTransactions (Some (transactions r)))) = 5%nat.
Proof.
  eexists. split; [reflexivity|].
  destruct (X15_reply_transaction_lines Demo.world ATM "Busy" "solana" _ eq_refl)
    as (_ & Hlines & _).
  - vm_compute. repeat constructor.
  - rewrite Hlines; [reflexivity | discriminate].
Defined.



(** ** The rate limiter *)

Section LimiterFacts.

Variables minTime maxConcurrent : nat.
Hypothesis a_place : (0 < maxConcurrent)%nat.

Lemma fold_min_in (t : nat) (ts : list nat) : In (fold_right Nat.min t ts) (t :: ts).
Proof.
  induction ts as [|a ts IH]; [left; reflexivity|].
  cbn [fold_right]. destruct (Nat.min_dec a (fold_right Nat.min t ts)) as [E|E]; rewrite E.
  - right. left. reflexivity.
  - destruct IH as [IH|IH]; [left; exact IH | right; right; exact IH].
Qed.

Lemma running_cons (t : nat) (s : Limiter.slot) (slots : list Limiter.slot) :
  Limiter.running t (s :: slots)
  = ((if Limiter.runs_at t s then 1 else 0) + Limiter.running t slots)%nat.
Proof.
  unfold Limiter.running. cbn [filter]. destruct (Limiter.runs_at t s); reflexivity.
Qed.

Lemma running_none (t : nat) (slots : list Limiter.slot) :
  Forall (fun e => (e <= t)%nat) (map snd slots) -> Limiter.running t slots = 0%nat.
Proof.
  induction slots as [|s slots IH]; intros H; [reflexivity|].
  cbn [map] in H. rewrite running_cons, (IH (Forall_inv_tail H)).
  apply Forall_inv in H. unfold Limiter.runs_at.
  destruct (Nat.ltb_spec t (snd s)); [lia|]. rewrite andb_false_r. reflexivity.
Qed.

(** Later, no more of the jobs started so far run. *)
Lemma running_later (t1 t2 : nat) (slots : list Limiter.slot) :
  Forall (fun s => (fst s <= t1)%nat) slots ->
  (t1 <= t2)%nat ->
  (Limiter.running t2 slots <= Limiter.running t1 slots)%nat.
Proof.
  intros Hall Hle. induction slots as [|s slots IH]; [reflexivity|].
  rewrite !running_cons. specialize (IH (Forall_inv_tail Hall)).
  apply Forall_inv in Hall. unfold Limiter.runs_at.
  destruct (Nat.leb_spec (fst s) t1); [|lia].
  destruct (Nat.leb_spec (fst s) t2); [|lia].
  destruct (Nat.ltb_spec t2 (snd s)), (Nat.ltb_spec t1 (snd s)); cbn; lia.
Qed.

Lemma earliest_free_ge (started : list Limiter.slot) (from : nat) :
  (from <= Limiter.earliest_free maxConcurrent started from)%nat.
Proof.
  unfold Limiter.earliest_free.
  destruct (filter _ _) as [|t ts] eqn:E.
  - cbn [list_max fold_right]. apply Nat.le_max_l.
  - pose proof (fold_min_in t ts) as Hin. rewrite <- E in Hin.
    apply filter_In in Hin. destruct Hin as [_ Hin].
    apply andb_prop in Hin. destruct Hin as [Hin _]. apply Nat.leb_le. exact Hin.
Qed.

Lemma earliest_free_free (started : list Limiter.slot) (from : nat) :
  (Limiter.running (Limiter.earliest_free maxConcurrent started from) started
   < maxConcurrent)%nat.
Proof.
  unfold Limiter.earliest_free.
  destruct (filter _ _) as [|t ts] eqn:E.
  - rewrite running_none; [exact a_place|].
    assert (H : Forall (fun e => (e <= list_max (from :: map snd started))%nat)
                  (from :: map snd started))
      by (apply list_max_le; reflexivity).
    exact (Forall_inv_tail H).
  - pose proof (fold_min_in t ts) as Hin. rewrite <- E in Hin.
    apply filter_In in Hin. destruct Hin as [_ Hin].
    apply andb_prop in Hin. destruct Hin as [_ Hin]. apply Nat.ltb_lt. exact Hin.
Qed.

Lemma ready_ge_submitted (started : list Limiter.slot) (submitted : nat) :
  (submitted <= Limiter.ready minTime started submitted)%nat.
Proof. destruct started; cbn; lia. Qed.

Lemma ready_ge_starts (started : list Limiter.slot) (submitted : nat) :
  Limiter.in_order started ->
  Forall (fun s => (fst s <= Limiter.ready minTime started submitted)%nat) started.
Proof.
  destruct started as [|latest rest]; intros H; [constructor|].
  cbn in *. constructor; [lia|].
  eapply Forall_impl; [|exact H]. cbn. intros s Hs. lia.
Qed.

(** Starting one more job keeps the bound on the jobs that run. *)
Lemma serve_one (started : list Limiter.slot) (j : Limiter.job) :
  Limiter.in_order started ->
  Limiter.within maxConcurrent started ->
  let start := Limiter.earliest_free maxConcurrent started
                 (Limiter.ready minTime started (Limiter.submitted j)) in
  let s := (start, (start + Limiter.duration j)%nat) in
  Limiter.in_order (s :: started) /\ Limiter.within maxConcurrent (s :: started).
Proof.
  intros Hord Hin start s.
  assert (Hstarts : Forall (fun s' => (fst s' <= start)%nat) started).
  { eapply Forall_impl; [|exact (ready_ge_starts started (Limiter.submitted j) Hord)].
    cbn. intros s' Hs'. unfold start.
    pose proof (earliest_free_ge started
                  (Limiter.ready minTime started (Limiter.submitted j))). lia. }
  split; [exact Hstarts|].
  intros t. rewrite running_cons. destruct (Limiter.runs_at t s) eqn:Et.
  - unfold Limiter.runs_at in Et. apply andb_prop in Et. destruct Et as [Et _].
    apply Nat.leb_le in Et. cbn [fst s] in Et.
    pose proof (running_later start t started Hstarts Et).
    pose proof (earliest_free_free started
                  (Limiter.ready minTime started (Limiter.submitted j))).
    fold start in H0. lia.
  - specialize (Hin t). lia.
Qed.

Lemma serve_within (jobs : list Limiter.job) (started : list Limiter.slot) :
  Limiter.in_order started ->
  Limiter.within maxConcurrent started ->
  forall t,
    (Limiter.running t (Limiter.serve minTime maxConcurrent started jobs)
     + Limiter.running t started <= maxConcurrent)%nat.
Proof.
  revert started. induction jobs as [|j rest IH]; intros started Hord Hin t.
  - cbn. apply Hin.
  - cbn [Limiter.serve]. destruct (serve_one started j Hord Hin) as [Hord' Hin'].
    specialize (IH _ Hord' Hin' t). rewrite running_cons in *. lia.
Qed.

Lemma serve_spaced (jobs : list Limiter.job) (latest : Limiter.slot)
    (started : list Limiter.slot) :
  Limiter.spaced_after minTime (fst latest)
    (map fst (Limiter.serve minTime maxConcurrent (latest :: started) jobs)) = true.
Proof.
  revert latest started. induction jobs as [|j rest IH]; intros latest started;
    [reflexivity|].
  cbn [Limiter.serve map Limiter.spaced_after]. rewrite IH, andb_true_r.
  apply Nat.leb_le. cbn [fst].
  pose proof (earliest_free_ge (latest :: started)
                (Limiter.ready minTime (latest :: started) (Limiter.submitted j))).
  cbn [Limiter.ready] in *. lia.
Qed.

Lemma serve_slots (jobs : list Limiter.job) (started : list Limiter.slot) :
  Forall2 (fun j s => (Limiter.submitted j <= fst s)%nat
                      /\ snd s = (fst s + Limiter.duration j)%nat)
          jobs (Limiter.serve minTime maxConcurrent started jobs).
Proof.
  revert started. induction jobs as [|j rest IH]; intros started; constructor;
    [|apply IH].
  cbn [fst snd]. split; [|reflexivity].
  pose proof (earliest_free_ge started
                (Limiter.ready minTime started (Limiter.submitted j))).
  pose proof (ready_ge_submitted started (Limiter.submitted j)). lia.
Qed.

(** The limiter keeps its two bounds, and starts no job before it is
    submitted. *)
Lemma schedule_bounds (jobs : list Limiter.job) :
  Limiter.spaced minTime (map fst (Limiter.schedule minTime maxConcurrent jobs)) = true
  /\ Limiter.within maxConcurrent (Limiter.schedule minTime maxConcurrent jobs)
  /\ Forall2 (fun j s => (Limiter.submitted j <= fst s)%nat
                         /\ snd s = (fst s + Limiter.duration j)%nat)
             jobs (Limiter.schedule minTime maxConcurrent jobs).
Proof.
  unfold Limiter.schedule. split; [|split].
  - destruct jobs as [|j rest]; [reflexivity|].
    cbn [Limiter.serve map Limiter.spaced]. apply serve_spaced.
  - intros t. pose proof (serve_within jobs [] I (fun _ => Nat.le_0_l _) t) as H.
    cbn in H. lia.
  - apply serve_slots.
Qed.

End LimiterFacts.

(** ** The limiter and the analyses *)

Lemma check_command_submits (w : World) (order : settle_order) (text : string) :
  check_command w order text
  = if submits text
    then check_analysis w order (address_of text) (symbol_of text)
    else {| replies := [USAGE]; infos := []; errors := [] |}.
Proof.
  unfold check_command, submits, address_of, symbol_of.
  destruct (length (skipn 1 (js_split " " text)) <? 2)%nat; reflexivity.
Qed.

Lemma Forall2_map_left {A B C} (P : B -> C -> Prop) (f : A -> B)
    (l : list A) (l' : list C) :
  Forall2 P (map f l) l' -> Forall2 (fun x y => P (f x) y) l l'.
Proof.
  revert l'. induction l as [|x l IH]; intros l' H; inversion H; subst; constructor;
    [assumption | apply IH; assumption].
Qed.

Lemma issued_length (w : World) (address : string) :
  (1 <= length (issued w address) <= 3)%nat.
Proof. unfold issued. destruct (awaits_node w address); cbn; lia. Qed.

Lemma flat_map_length_bounds {A B} (g : A -> list B) (l : list A) :
  (forall x, (1 <= length (g x) <= 3)%nat) ->
  (length l <= length (flat_map g l) <= 3 * length l)%nat.
Proof.
  intros Hg. induction l as [|x l IH]; [cbn; lia|].
  cbn [flat_map length]. rewrite length_app. specialize (Hg x). lia.
Qed.



